(** * Z8000 standalone emulator: a shallow embedding and its properties

    The development follows the layout of the repository:

    - [Emu]: the MAME compatibility shim [include/emu.h] (byte swapping,
      the endian-aware index macros, the stub device callbacks and
      [string_format]);
    - [RegFile]: the Z8000 register file, a 32-byte store addressed through
      the index macros of the shim;
    - [Z8000]: the CPU core (bus, flags, trap entry, reset, HALT, INC/DEC and
      the block instructions).

    Part I holds the embedding, Part II the properties, module by module
    ([EmuFacts], [RegFileFacts], [Z8000Facts]). *)

From Stdlib Require Import ZArith Lia Bool Ascii.
From stdpp Require Import base list gmap.

Local Open Scope Z_scope.

(** * Part I: the embedding *)

(** ** Bit-level toolbox *)

Module Bits.

(** Unsigned [w]-bit wrap-around, as C performs it on assignment to an
    unsigned type. *)
Definition wrap (w : Z) (x : Z) : Z := x mod 2 ^ w.

Definition u8 (x : Z) : Z := wrap 8 x.
Definition u16 (x : Z) : Z := wrap 16 x.
Definition u32 (x : Z) : Z := wrap 32 x.

(** The [i]-th byte of [x], counted from the least significant one. *)
Definition byte_of (i : Z) (x : Z) : Z := Z.land (Z.shiftr x (8 * i)) 255.

End Bits.

(** ** The compatibility shim, [include/emu.h] *)

Module Emu.
Import Bits.

(** [enum endianness_t] *)
Inductive endianness_t : Type :=
| ENDIANNESS_LITTLE
| ENDIANNESS_BIG.

(** [inline u16 swapendian_int16(u16 val)]: the operand is promoted to
    [int], the result of the [|] is converted back to [u16]. *)
Definition swapendian_int16 (val : Z) : Z :=
  u16 (Z.lor (Z.shiftr val 8) (Z.shiftl val 8)).

(** [inline u32 swapendian_int32(u32 val)]: the shifts are on [u32], so the
    left shifts wrap at 32 bits. *)
Definition swapendian_int32 (val : Z) : Z :=
  Z.lor
    (Z.lor
       (Z.lor (Z.land (Z.shiftr val 24) 0xff)
              (Z.land (Z.shiftr val 8) 0xff00))
       (Z.land (u32 (Z.shiftl val 8)) 0xff0000))
    (Z.land (u32 (Z.shiftl val 24)) 0xff000000).

(** [inline int BIT(u32 val, int bit)] *)
Definition BIT (val : Z) (bit : Z) : Z := Z.land (Z.shiftr val bit) 1.

(** The endian-aware index macros.  The preprocessor picks one of the two
    groups from the byte order of the host; here the host is an argument. *)
Definition BYTE8_XOR_BE (host : endianness_t) (x : Z) : Z :=
  match host with
  | ENDIANNESS_BIG => x
  | ENDIANNESS_LITTLE => Z.lxor x 3
  end.

Definition BYTE4_XOR_BE (host : endianness_t) (x : Z) : Z :=
  match host with
  | ENDIANNESS_BIG => x
  | ENDIANNESS_LITTLE => Z.lxor x 1
  end.

Definition BYTE_XOR_BE (host : endianness_t) (x : Z) : Z :=
  match host with
  | ENDIANNESS_BIG => x
  | ENDIANNESS_LITTLE => x
  end.

(** IRQ line constants *)
Definition CLEAR_LINE : Z := 0.
Definition ASSERT_LINE : Z := 1.
Definition INPUT_LINE_NMI : Z := 2.

(** *** Stub device callbacks: [devcb_read<T>::array<N>] *)

Section Devcb.
Context {T : Type}.
(** The value [0] of the numeric type [T]. *)
Variable zero : T.

(** The only data member is [m_default]. *)
Record array : Type := { m_default : T }.

(** A freshly constructed array: [T m_default = 0;]. *)
Definition array_new : array := {| m_default := zero |}.

(** [void resolve_all_safe(T default_val) {}] *)
Definition resolve_all_safe (default_val : T) (a : array) : array := a.

(** [T operator[](int index) const { return m_default; }] *)
Definition array_index (a : array) (index : Z) : T := m_default a.

(** [T operator()(int param) const { return m_default; }] *)
Definition array_call (a : array) (param : Z) : T := m_default a.

(** The member is private: an array is only ever reached from its
    constructor by calls of [resolve_all_safe]. *)
Definition array_after (defaults : list T) : array :=
  foldl (fun a d => resolve_all_safe d a) array_new defaults.
End Devcb.

(** *** [string_format] *)

Section StringFormat.
(** The C library's expansion of a format string over its arguments: the
    characters [snprintf] would produce with unlimited room. *)
Context {Fmt Args : Type}.
Variable expand : Fmt -> Args -> list ascii.

Definition NUL : ascii := Ascii.zero.

(** [snprintf(buf, size, ...)]: at most [size - 1] characters of the
    expansion are stored, then a terminating NUL; the rest of the buffer
    is left as it was. *)
Definition snprintf (buf : list ascii) (size : nat) (out : list ascii)
  : list ascii :=
  match size with
  | O => buf
  | S room =>
      let written := take room out ++ [NUL] in
      written ++ drop (length written) buf
  end.

(** [std::string(const char* )]: the characters before the first NUL. *)
Fixpoint c_str (buf : list ascii) : list ascii :=
  match buf with
  | [] => []
  | c :: rest => if Ascii.eqb c NUL then [] else c :: c_str rest
  end.

(** [char buf[256];] holds indeterminate characters, given by [indet]. *)
Definition string_format (indet : nat -> ascii) (fmt : Fmt) (args : Args)
  : list ascii :=
  let buf := map indet (seq 0 256) in
  let buf := snprintf buf 256 (expand fmt args) in
  c_str buf.
End StringFormat.

End Emu.

(** ** The register file *)

Module RegFile.
Import Bits Emu.

(** Modelled from the spec: the register file [m_regs], whose declaration
    in [include/z8000cpu.h] is not among the sources.  It is one block of 32
    bytes of host memory (sixteen 16-bit registers), seen at once as the
    arrays the comment of the shim names: the bytes [B], the 16-bit words
    [W] and the 32-bit longs [L].  A store is the list of its bytes in host
    address order. *)
Definition wf_regs (r : list Z) : Prop :=
  length r = 32%nat /\ Forall (fun b => 0 <= b < 256) r.

Section Host.
Variable host : endianness_t.

(** *** The host arrays *)

(** [B[i]] *)
Definition B (r : list Z) (i : Z) : Z := r !!! Z.to_nat i.

(** [B[i] = v], truncating to [u8] *)
Definition set_B (r : list Z) (i : Z) (v : Z) : list Z :=
  <[Z.to_nat i := u8 v]> r.

(** [W[i]]: the two bytes at offset [2 * i], in the byte order of the
    host. *)
Definition W (r : list Z) (i : Z) : Z :=
  match host with
  | ENDIANNESS_LITTLE => B r (2 * i) + 256 * B r (2 * i + 1)
  | ENDIANNESS_BIG => 256 * B r (2 * i) + B r (2 * i + 1)
  end.

(** [W[i] = v], truncating to [u16] *)
Definition set_W (r : list Z) (i : Z) (v : Z) : list Z :=
  match host with
  | ENDIANNESS_LITTLE => set_B (set_B r (2 * i) v) (2 * i + 1) (Z.shiftr v 8)
  | ENDIANNESS_BIG => set_B (set_B r (2 * i) (Z.shiftr v 8)) (2 * i + 1) v
  end.

(** [L[i]]: the two words at word offset [2 * i], in the order of the
    host. *)
Definition L (r : list Z) (i : Z) : Z :=
  match host with
  | ENDIANNESS_LITTLE => W r (2 * i) + 65536 * W r (2 * i + 1)
  | ENDIANNESS_BIG => 65536 * W r (2 * i) + W r (2 * i + 1)
  end.

(** [L[i] = v], truncating to [u32] *)
Definition set_L (r : list Z) (i : Z) (v : Z) : list Z :=
  match host with
  | ENDIANNESS_LITTLE => set_W (set_W r (2 * i) v) (2 * i + 1) (Z.shiftr v 16)
  | ENDIANNESS_BIG => set_W (set_W r (2 * i) (Z.shiftr v 16)) (2 * i + 1) v
  end.

(** *** The register accessors

    The shim documents them as [RW(n) = W[BYTE4_XOR_BE(n)]],
    [RB(n) = B[BYTE8_XOR_BE(formula(n))]] and
    [RL(n) = L[BYTE_XOR_BE(n>>1)]]. *)

(** Word register [Rn], [0 <= n < 16]. *)
Definition RW (r : list Z) (n : Z) : Z := W r (BYTE4_XOR_BE host n).

Definition set_RW (r : list Z) (n : Z) (v : Z) : list Z :=
  set_W r (BYTE4_XOR_BE host n) v.

(** Long register [RRn], [n] even. *)
Definition RL (r : list Z) (n : Z) : Z :=
  L r (BYTE_XOR_BE host (Z.shiftr n 1)).

Definition set_RL (r : list Z) (n : Z) (v : Z) : list Z :=
  set_L r (BYTE_XOR_BE host (Z.shiftr n 1)) v.

(** Modelled from the spec: the index formula of the byte accessor, which
    the shim only names ([include/z8000cpu.h], where the accessors are
    defined, is not among the sources).  On a little-endian host [RH(k)] is
    at offset [(k<<1) xor 3] and [RL(k)] at [(k<<1) xor 3 xor 1] of the
    packed byte view, the xor with 3 being the one of [BYTE8_XOR_BE]: the
    formula is [k<<1] for the high byte of register [k] and [(k<<1) xor 1]
    for its low byte; [0 <= k < 8]. *)
Definition RB_index_high (k : Z) : Z := Z.shiftl k 1.

Definition RB_index_low (k : Z) : Z := Z.lxor (Z.shiftl k 1) 1.

(** Byte registers [RHk] and [RLk], through [B[BYTE8_XOR_BE(formula)]]. *)
Definition RHb (r : list Z) (k : Z) : Z :=
  B r (BYTE8_XOR_BE host (RB_index_high k)).

Definition RLb (r : list Z) (k : Z) : Z :=
  B r (BYTE8_XOR_BE host (RB_index_low k)).

Definition set_RHb (r : list Z) (k : Z) (v : Z) : list Z :=
  set_B r (BYTE8_XOR_BE host (RB_index_high k)) v.

Definition set_RLb (r : list Z) (k : Z) (v : Z) : list Z :=
  set_B r (BYTE8_XOR_BE host (RB_index_low k)) v.

(** Modelled from the spec: the quad accessor, which the shim does not
    mention ([include/z8000cpu.h] is not among the sources).  [RQ(n)], [n]
    in 0, 4, 8, 12, is four consecutive words with [RW(n)] high, that is the
    long [RR(n)] above the long [RR(n+2)]. *)
Definition RQ (r : list Z) (n : Z) : Z :=
  RL r n * 2 ^ 32 + RL r (n + 2).

Definition set_RQ (r : list Z) (n : Z) (v : Z) : list Z :=
  set_RL (set_RL r n (Z.shiftr v 32)) (n + 2) v.

(** *** Views *)

Inductive view : Type :=
| VRH (k : Z)   (* high byte of word register k *)
| VRL (k : Z)   (* low byte of word register k *)
| VRW (n : Z)   (* word register n *)
| VRR (n : Z)   (* long register n *)
| VRQ (n : Z).  (* quad register n *)

Definition valid_view (vw : view) : bool :=
  match vw with
  | VRH k | VRL k => (0 <=? k) && (k <? 8)
  | VRW n => (0 <=? n) && (n <? 16)
  | VRR n => (0 <=? n) && (n <? 16) && Z.even n
  | VRQ n => (0 <=? n) && (n <? 16) && (n mod 4 =? 0)
  end.

Definition read (r : list Z) (vw : view) : Z :=
  match vw with
  | VRH k => RHb r k
  | VRL k => RLb r k
  | VRW n => RW r n
  | VRR n => RL r n
  | VRQ n => RQ r n
  end.

Definition write (r : list Z) (vw : view) (v : Z) : list Z :=
  match vw with
  | VRH k => set_RHb r k v
  | VRL k => set_RLb r k v
  | VRW n => set_RW r n v
  | VRR n => set_RL r n v
  | VRQ n => set_RQ r n v
  end.

(** The sixteen word registers, [R0] first. *)
Definition words (r : list Z) : list Z :=
  map (fun n => RW r (Z.of_nat n)) (seq 0 16).

End Host.

(** *** The register file of the specification

    Sixteen 16-bit slots; every other view is a slice of them: [RH(k)] is
    the high byte of slot [k] and [RL(k)] its low byte, a long is the
    concatenation of slots [n] and [n+1] with slot [n] high, a quad is four
    consecutive slots with slot [n] high. *)
Module Spec.

Definition slot (s : list Z) (n : Z) : Z := s !!! Z.to_nat n.

Definition set_slot (s : list Z) (n : Z) (v : Z) : list Z :=
  <[Z.to_nat n := u16 v]> s.

Definition read (s : list Z) (vw : view) : Z :=
  match vw with
  | VRH k => Z.shiftr (slot s k) 8
  | VRL k => Z.land (slot s k) 0xFF
  | VRW n => slot s n
  | VRR n => slot s n * 2 ^ 16 + slot s (n + 1)
  | VRQ n =>
      slot s n * 2 ^ 48 + slot s (n + 1) * 2 ^ 32
      + slot s (n + 2) * 2 ^ 16 + slot s (n + 3)
  end.

Definition write (s : list Z) (vw : view) (v : Z) : list Z :=
  match vw with
  | VRH k => set_slot s k (u8 v * 256 + Z.land (slot s k) 0xFF)
  | VRL k => set_slot s k (Z.shiftr (slot s k) 8 * 256 + u8 v)
  | VRW n => set_slot s n v
  | VRR n => set_slot (set_slot s n (Z.shiftr v 16)) (n + 1) v
  | VRQ n =>
      set_slot
        (set_slot
           (set_slot (set_slot s n (Z.shiftr v 48)) (n + 1) (Z.shiftr v 32))
           (n + 2) (Z.shiftr v 16))
        (n + 3) v
  end.

End Spec.

(** Applying a sequence of writes, oldest first. *)
Definition writes (host : endianness_t) (r : list Z)
  (ws : list (view * Z)) : list Z :=
  foldl (fun r w => write host r (fst w) (snd w)) r ws.

Definition spec_writes (s : list Z) (ws : list (view * Z)) : list Z :=
  foldl (fun s w => Spec.write s (fst w) (snd w)) s ws.

(** The width in bits of a view. *)
Definition view_bits (vw : view) : Z :=
  match vw with
  | VRH _ | VRL _ => 8
  | VRW _ => 16
  | VRR _ => 32
  | VRQ _ => 64
  end.

(** *** Architectural bytes

    Read big-endian, word register [n] occupies the byte positions [2n]
    (high byte) and [2n + 1] (low byte) of the register file. *)

(** The first position a view covers, and how many it covers. *)
Definition view_first (vw : view) : Z :=
  match vw with
  | VRH k => 2 * k
  | VRL k => 2 * k + 1
  | VRW n | VRR n | VRQ n => 2 * n
  end.

Definition view_len (vw : view) : Z := view_bits vw / 8.

Definition covers (vw : view) (p : Z) : bool :=
  (view_first vw <=? p) && (p <? view_first vw + view_len vw).

(** The byte of a value written through [vw] that lands on position [p]:
    the most significant byte lands on the first position. *)
Definition slice (vw : view) (v : Z) (p : Z) : Z :=
  byte_of (view_first vw + view_len vw - 1 - p) v.

(** The value a view shows over the bytes [f], most significant first. *)
Definition be_value (f : Z -> Z) (vw : view) : Z :=
  foldl (fun acc p => acc * 256 + f p) 0 (seqZ (view_first vw) (view_len vw)).

(** The most recent of the writes [rws] (most recent first) that covers
    position [p]. *)
Fixpoint most_recent (rws : list (view * Z)) (p : Z) : option (view * Z) :=
  match rws with
  | [] => None
  | w :: older => if covers (fst w) p then Some w else most_recent older p
  end.

(** The byte position [p] holds after the writes [ws] (oldest first) over
    the initial content [init]: the slice of the most recently written value
    that covers it. *)
Definition last_written (init : Z -> Z) (ws : list (view * Z)) (p : Z) : Z :=
  match most_recent (rev ws) p with
  | Some w => slice (fst w) (snd w) p
  | None => init p
  end.

(** Where the host keeps the byte of position [p]. *)
Definition arch_byte (host : endianness_t) (r : list Z) (p : Z) : Z :=
  B r (BYTE8_XOR_BE host p).

End RegFile.

(** ** The CPU core *)

Module Z8000.
Import Bits Emu RegFile.

(** *** FCW bits, from the table of the README *)

Definition F_SEG  : Z := 0x8000. (* bit 15 *)
Definition F_S_N  : Z := 0x4000. (* bit 14: system (1) / normal (0) *)
Definition F_EPU  : Z := 0x2000. (* bit 13 *)
Definition F_VIE  : Z := 0x1000. (* bit 12 *)
Definition F_NVIE : Z := 0x0800. (* bit 11 *)
Definition F_C    : Z := 0x0080. (* bit 7 *)
Definition F_Z    : Z := 0x0040. (* bit 6 *)
Definition F_S    : Z := 0x0020. (* bit 5 *)
Definition F_PV   : Z := 0x0010. (* bit 4 *)
Definition F_DA   : Z := 0x0008. (* bit 3 *)
Definition F_H    : Z := 0x0004. (* bit 2 *)

(** Sets or clears the bits of [mask] in a flag word. *)
Definition put_flag (mask : Z) (b : bool) (fcw : Z) : Z :=
  if b then Z.lor fcw mask else Z.ldiff fcw mask.

(** *** Trap and interrupt sources *)

(** Modelled from the spec: the sources of the trap and interrupt entry
    sequence of section 4.5; the CPU core that names them, [src/z8000.cpp],
    is not among the sources. *)
Inductive trap : Type :=
| T_RESET   (* reset *)
| T_EPU     (* extended instruction *)
| T_PRIV    (* privileged instruction *)
| T_SC      (* system call *)
| T_SEG     (* segment trap *)
| T_NMI     (* non-maskable interrupt *)
| T_NVI     (* non-vectored interrupt *)
| T_VI.     (* vectored interrupt *)

Definition trap_eqb (a b : trap) : bool :=
  match a, b with
  | T_RESET, T_RESET | T_EPU, T_EPU | T_PRIV, T_PRIV | T_SC, T_SC
  | T_SEG, T_SEG | T_NMI, T_NMI | T_NVI, T_NVI | T_VI, T_VI => true
  | _, _ => false
  end.


(** The memory map of the README (Z8002): where each source finds its new
    FCW and its new PC, as offsets from the PSAP, which is 0 after reset. *)
Definition vector_fcw (t : trap) : Z :=
  match t with
  | T_RESET => 0x0002
  | T_EPU   => 0x0006
  | T_PRIV  => 0x000A
  | T_SC    => 0x000E
  | T_SEG   => 0x0012
  | T_NMI   => 0x0016
  | T_NVI   => 0x001A
  | T_VI    => 0x001E
  end.

Definition vector_pc (t : trap) : Z :=
  match t with
  | T_RESET => 0x0004
  | T_EPU   => 0x0008
  | T_PRIV  => 0x000C
  | T_SC    => 0x0010
  | T_SEG   => 0x0014
  | T_NMI   => 0x0018
  | T_NVI   => 0x001C
  | T_VI    => 0x0020
  end.

(** *** CPU state *)

(** Modelled from the spec: the CPU class of [include/z8000.h], which is
    not among the sources; this is the state of section 3.3.  The memory is
    the program space, which also holds data and the stack; it maps a 16-bit
    address to a byte, an absent address reading 0.  The I/O space is a
    latching device, a map from port to the value last written. *)
Record cpu : Type := mkCpu {
  regs : list Z;            (* the register file store *)
  pc : Z;
  fcw : Z;
  psap : Z;
  refresh : Z;
  irq_req : trap -> bool;   (* pending-line latches *)
  nmi_pending : bool;
  halt : bool;
  mem : gmap Z Z;
  io : gmap Z Z
}.

(** Field updates. *)
Definition set_regs (s : cpu) (r : list Z) : cpu :=
  mkCpu r (pc s) (fcw s) (psap s) (refresh s) (irq_req s) (nmi_pending s)
        (halt s) (mem s) (io s).

Definition set_pc (s : cpu) (v : Z) : cpu :=
  mkCpu (regs s) v (fcw s) (psap s) (refresh s) (irq_req s) (nmi_pending s)
        (halt s) (mem s) (io s).

Definition set_fcw (s : cpu) (v : Z) : cpu :=
  mkCpu (regs s) (pc s) v (psap s) (refresh s) (irq_req s) (nmi_pending s)
        (halt s) (mem s) (io s).

Definition set_irq_req (s : cpu) (f : trap -> bool) : cpu :=
  mkCpu (regs s) (pc s) (fcw s) (psap s) (refresh s) f (nmi_pending s)
        (halt s) (mem s) (io s).

Definition set_halt (s : cpu) (b : bool) : cpu :=
  mkCpu (regs s) (pc s) (fcw s) (psap s) (refresh s) (irq_req s)
        (nmi_pending s) b (mem s) (io s).

Definition set_mem (s : cpu) (m : gmap Z Z) : cpu :=
  mkCpu (regs s) (pc s) (fcw s) (psap s) (refresh s) (irq_req s)
        (nmi_pending s) (halt s) m (io s).

Definition set_io (s : cpu) (p : gmap Z Z) : cpu :=
  mkCpu (regs s) (pc s) (fcw s) (psap s) (refresh s) (irq_req s)
        (nmi_pending s) (halt s) (mem s) p.

(** *** Bus interface *)

(** Modelled from the spec: the bus of [include/memory.h], which is not
    among the sources; this is section 4.2.  Addresses are 16 bits wide and
    wrap; odd addresses are not rejected. *)
Definition RDMEM_B (m : gmap Z Z) (addr : Z) : Z :=
  default 0 (m !! u16 addr).

(** Modelled from the spec: byte store of the bus of [include/memory.h]. *)
Definition WRMEM_B (m : gmap Z Z) (addr : Z) (v : Z) : gmap Z Z :=
  <[u16 addr := u8 v]> m.

(** Modelled from the spec: word load of the bus of [include/memory.h];
    words are big-endian in memory, the high byte at the given address. *)
Definition RDMEM_W (m : gmap Z Z) (addr : Z) : Z :=
  RDMEM_B m addr * 256 + RDMEM_B m (addr + 1).

(** Modelled from the spec: word store of the bus of [include/memory.h],
    high byte first. *)
Definition WRMEM_W (m : gmap Z Z) (addr : Z) (v : Z) : gmap Z Z :=
  WRMEM_B (WRMEM_B m addr (Z.shiftr v 8)) (addr + 1) v.

(** Modelled from the spec: the port space of [include/memory.h], as a
    latching device. *)
Definition RDPORT_B (p : gmap Z Z) (port : Z) : Z :=
  default 0 (p !! u16 port).

(** Modelled from the spec: byte output to a port of [include/memory.h]. *)
Definition WRPORT_B (p : gmap Z Z) (port : Z) (v : Z) : gmap Z Z :=
  <[u16 port := u8 v]> p.

(** Modelled from the spec: word input from a port of [include/memory.h]. *)
Definition RDPORT_W (p : gmap Z Z) (port : Z) : Z :=
  default 0 (p !! u16 port).

(** Modelled from the spec: word output to a port of [include/memory.h]. *)
Definition WRPORT_W (p : gmap Z Z) (port : Z) (v : Z) : gmap Z Z :=
  <[u16 port := u16 v]> p.

Section Host.
Variable host : endianness_t.

(** Modelled from the spec: R15 is the stack pointer of the Z8002
    ([include/z8000cpu.h] is not among the sources). *)
Definition SP : Z := 15.

(** Modelled from the spec: the push of [include/z8000ops.hxx], which is
    not among the sources.  PUSH pre-decrements SP by the operand size, then
    stores. *)
Definition PUSHW (s : cpu) (v : Z) : cpu :=
  let sp := u16 (RW host (regs s) SP - 2) in
  set_mem (set_regs s (set_RW host (regs s) SP sp)) (WRMEM_W (mem s) sp v).

(** Modelled from the spec: vectored interrupts and system calls also
    push their identifier ([src/z8000.cpp] is not among the sources). *)
Definition pushes_id (t : trap) : bool :=
  match t with
  | T_VI | T_SC => true
  | _ => false
  end.

(** Modelled from the spec: clearing the pending-line latch of a source
    ([src/z8000.cpp] is not among the sources). *)
Definition clear_pending (t : trap) (s : cpu) : cpu :=
  set_irq_req s (fun t' => if trap_eqb t t' then false else irq_req s t').

(** Modelled from the spec: the interrupt and trap entry of
    [src/z8000.cpp], which is not among the sources; this is the sequence of
    section 4.5 for the non-segmented Z8002, on source [t] with identifier
    [id].  The old FCW is pushed, then the old PC, then for a vectored
    interrupt or a system call the identifier byte extended to a word; the
    new FCW and PC are loaded from the entry of [t] in the program status
    area, laid out as the memory map gives it; the latch of [t] is
    cleared. *)
Definition trap_entry (t : trap) (id : Z) (s : cpu) : cpu :=
  let old_fcw := fcw s in
  let old_pc := pc s in
  let s1 := PUSHW s old_fcw in
  let s2 := PUSHW s1 old_pc in
  let s3 := if pushes_id t then PUSHW s2 (u8 id) else s2 in
  let new_fcw := RDMEM_W (mem s3) (psap s + vector_fcw t) in
  let new_pc := RDMEM_W (mem s3) (psap s + vector_pc t) in
  clear_pending t (set_pc (set_fcw s3 new_fcw) new_pc).

(** Modelled from the spec: [reset()] of [src/z8000.cpp], which is not
    among the sources.  It reloads PC and FCW from vector 0 of the program
    status area, whose pointer is 0 after reset, and clears the pending
    lines, the halt flag and the refresh register.  The general registers
    are not touched. *)
Definition reset (s : cpu) : cpu :=
  let psap0 := 0 in
  mkCpu (regs s)
        (RDMEM_W (mem s) (psap0 + vector_pc T_RESET))
        (RDMEM_W (mem s) (psap0 + vector_fcw T_RESET))
        psap0
        0
        (fun _ => false)
        false
        false
        (mem s)
        (io s).

(** Modelled from the spec: the constructor of [src/z8000.cpp], which is
    not among the sources.  The CPU is created in a reset state, over the
    memory and ports of the embedder; [r0] is whatever the register file
    holds at that point. *)
Definition create (r0 : list Z) (m : gmap Z Z) (p : gmap Z Z) : cpu :=
  reset (mkCpu r0 0 0 0 0 (fun _ => false) false false m p).

(** *** Flag unit

    Section 4.3 of the specification, at operand width [w] (8 or 16).  The
    half carry is the carry out of the low [w - 4] bits. *)

(** Modelled from the spec: the flag macros of [include/z8000cpu.h], which
    is not among the sources.  Compare and subtract, [a - b]: C is the
    borrow, Z and S come from the result, V is the signed overflow, H the
    borrow of the low bits. *)
Definition sub_flags (w : Z) (a b : Z) (f : Z) : Z :=
  let r := wrap w (a - b) in
  put_flag F_H (wrap (w - 4) a <? wrap (w - 4) b)
    (put_flag F_PV
       (Z.testbit (Z.land (Z.lxor a b) (Z.lxor a r)) (w - 1))
       (put_flag F_S (Z.testbit r (w - 1))
          (put_flag F_Z (r =? 0)
             (put_flag F_C (a <? b) f)))).

(** Modelled from the spec: the flags of INC ([include/z8000cpu.h] is not
    among the sources).  C is not affected; V follows the rule of addition,
    [((~(a^n)) & (a^r))] at the sign bit. *)
Definition inc_flags (w : Z) (a n : Z) (f : Z) : Z :=
  let r := wrap w (a + n) in
  put_flag F_H (2 ^ (w - 4) <=? wrap (w - 4) a + wrap (w - 4) n)
    (put_flag F_PV
       (Z.testbit (Z.land (Z.lnot (Z.lxor a n)) (Z.lxor a r)) (w - 1))
       (put_flag F_S (Z.testbit r (w - 1))
          (put_flag F_Z (r =? 0) f))).

(** Modelled from the spec: the flags of DEC ([include/z8000cpu.h] is not
    among the sources).  C is not affected; V follows the rule of
    subtraction. *)
Definition dec_flags (w : Z) (a n : Z) (f : Z) : Z :=
  let r := wrap w (a - n) in
  put_flag F_H (wrap (w - 4) a <? wrap (w - 4) n)
    (put_flag F_PV
       (Z.testbit (Z.land (Z.lxor a n) (Z.lxor a r)) (w - 1))
       (put_flag F_S (Z.testbit r (w - 1))
          (put_flag F_Z (r =? 0) f))).

(** *** Condition codes *)

(** Modelled from the spec: the condition codes of [include/z8000cpu.h],
    which is not among the sources: always and never, Z and NZ, C and NC,
    sign, overflow, the sign and overflow combinations, and the unsigned
    comparisons. *)
Inductive cond : Type :=
| CC_F | CC_T
| CC_EQ | CC_NE           (* Z, NZ *)
| CC_ULT | CC_UGE         (* C, NC *)
| CC_MI | CC_PL           (* S, not S *)
| CC_OV | CC_NOV          (* V, not V *)
| CC_LT | CC_GE           (* S xor V, and its negation *)
| CC_LE | CC_GT           (* Z or (S xor V), and its negation *)
| CC_ULE | CC_UGT.        (* C or Z, and its negation *)

(** Whether a bit of the flag word is set. *)
Definition flag (mask : Z) (f : Z) : bool := negb (Z.land f mask =? 0).

(** Modelled from the spec: what each condition code tests
    ([include/z8000cpu.h] is not among the sources). *)
Definition cond_holds (cc : cond) (f : Z) : bool :=
  let c := flag F_C f in
  let z := flag F_Z f in
  let s := flag F_S f in
  let v := flag F_PV f in
  match cc with
  | CC_F => false
  | CC_T => true
  | CC_EQ => z
  | CC_NE => negb z
  | CC_ULT => c
  | CC_UGE => negb c
  | CC_MI => s
  | CC_PL => negb s
  | CC_OV => v
  | CC_NOV => negb v
  | CC_LT => xorb s v
  | CC_GE => negb (xorb s v)
  | CC_LE => z || xorb s v
  | CC_GT => negb (z || xorb s v)
  | CC_ULE => c || z
  | CC_UGT => negb (c || z)
  end.

(** *** Instructions *)

(** Modelled from the spec: the operands of a block instruction, by
    family ([include/z8000ops.hxx] is not among the sources).  Pointers,
    ports and the count are word registers, given by index; the register a
    block compare tests is a word or a byte register. *)
Inductive block_kind : Type :=
| BLD (dst src : Z)                  (* LDI, LDD and their forms *)
| BCP (data : view) (src : Z) (cc : cond) (* CPI, CPD and their forms *)
| BIN (dst port : Z)                 (* INI, IND and their forms *)
| BOUT (port src : Z).               (* OUTI, OUTD and their forms *)

(** Modelled from the spec: a decoded block instruction
    ([include/z8000tbl.hxx] is not among the sources). *)
Record block_instr : Type := mkBlock {
  b_kind : block_kind;
  b_dec : bool;      (* decrementing form *)
  b_byte : bool;     (* byte form *)
  b_repeat : bool;   (* repeating form *)
  b_cnt : Z          (* count register *)
}.

(** Modelled from the spec: the decoded instructions the properties below
    are about ([include/z8000tbl.hxx] is not among the sources). *)
Inductive instr : Type :=
| I_HALT
| I_INC (dst : view) (imm4 : Z)   (* INC dst, #(imm4 + 1) *)
| I_DEC (dst : view) (imm4 : Z)   (* DEC dst, #(imm4 + 1) *)
| I_BLOCK (b : block_instr).

(** The first word of HALT, [7A 00] in the test binary of the README. *)
Definition HALT_OPCODE : Z := 0x7A00.

(** Modelled from the spec: instruction length in bytes; a block
    instruction occupies two words ([include/z8000tbl.hxx] is not among the
    sources). *)
Definition instr_len (i : instr) : Z :=
  match i with
  | I_BLOCK _ => 4
  | _ => 2
  end.

(** Modelled from the spec: the HALT handler of [include/z8000ops.hxx],
    which is not among the sources.  HALT sets the halt flag, but only in
    system mode; in normal mode it raises a privileged-instruction trap. *)
Definition HALT (s : cpu) : cpu :=
  if flag F_S_N (fcw s) then set_halt s true
  else trap_entry T_PRIV HALT_OPCODE s.

(** Modelled from the spec: the INC and DEC handlers of
    [include/z8000ops.hxx], which is not among the sources.  INC and DEC by
    [n] in 1..16, with [n] encoded as [n - 1], on a byte or word
    register. *)
Definition INC (dst : view) (imm4 : Z) (s : cpu) : cpu :=
  let a := read host (regs s) dst in
  let n := imm4 + 1 in
  let w := view_bits dst in
  set_fcw (set_regs s (write host (regs s) dst (wrap w (a + n))))
          (inc_flags w a n (fcw s)).

(** Modelled from the spec: the DEC handler of [include/z8000ops.hxx],
    as INC above. *)
Definition DEC (dst : view) (imm4 : Z) (s : cpu) : cpu :=
  let a := read host (regs s) dst in
  let n := imm4 + 1 in
  let w := view_bits dst in
  set_fcw (set_regs s (write host (regs s) dst (wrap w (a - n))))
          (dec_flags w a n (fcw s)).

(** *** Block instructions

    The block-instruction state machine of section 4.5. *)

(** Modelled from the spec: pointer registers move by +2/-2 (word) or
    +1/-1 (byte) ([include/z8000ops.hxx] is not among the sources). *)
Definition block_delta (b : block_instr) : Z :=
  let size := if b_byte b then 1 else 2 in
  if b_dec b then - size else size.

(** Operand width of a block instruction. *)
Definition block_bits (b : block_instr) : Z :=
  if b_byte b then 8 else 16.

(** Modelled from the spec: the update of a pointer register
    ([include/z8000ops.hxx] is not among the sources). *)
Definition bump (s : cpu) (reg : Z) (d : Z) : cpu :=
  set_regs s (set_RW host (regs s) reg (u16 (RW host (regs s) reg + d))).

(** Memory and port accesses at the width of the instruction. *)
Definition rd_mem (b : block_instr) (m : gmap Z Z) (addr : Z) : Z :=
  if b_byte b then RDMEM_B m addr else RDMEM_W m addr.

Definition wr_mem (b : block_instr) (m : gmap Z Z) (addr v : Z) : gmap Z Z :=
  if b_byte b then WRMEM_B m addr v else WRMEM_W m addr v.

Definition rd_port (b : block_instr) (p : gmap Z Z) (port : Z) : Z :=
  if b_byte b then RDPORT_B p port else RDPORT_W p port.

Definition wr_port (b : block_instr) (p : gmap Z Z) (port v : Z) : gmap Z Z :=
  if b_byte b then WRPORT_B p port v else WRPORT_W p port v.

(** The pointer registers a block instruction updates. *)
Definition block_pointers (b : block_instr) : list Z :=
  match b_kind b with
  | BLD dst src => [dst; src]
  | BCP _ src _ => [src]
  | BIN dst _ => [dst]
  | BOUT _ src => [src]
  end.

(** Whether the count register is none of the pointer registers. *)
Definition count_separate (b : block_instr) : bool :=
  forallb (fun p => negb (p =? b_cnt b)) (block_pointers b).

(** Register indices are 4 bits wide. *)
Definition valid_reg (n : Z) : bool := (0 <=? n) && (n <? 16).

(** Modelled from the spec: register 0 is not a legal register for
    indirect addressing ([include/z8000tbl.hxx] is not among the
    sources). *)
Definition valid_ptr (n : Z) : bool := (1 <=? n) && (n <? 16).

(** Modelled from the spec: the block instructions the decoder lets
    through ([include/z8000tbl.hxx] is not among the sources). *)
Definition valid_block (b : block_instr) : bool :=
  valid_reg (b_cnt b) &&
  match b_kind b with
  | BLD dst src => valid_ptr dst && valid_ptr src
  | BCP data src _ =>
      valid_view data && (view_bits data =? block_bits b) && valid_ptr src
  | BIN dst port => valid_ptr dst && valid_ptr port
  | BOUT port src => valid_ptr port && valid_ptr src
  end.


(** Modelled from the spec: one transfer or compare step of the block
    handlers of [include/z8000ops.hxx], which is not among the sources.
    Read the source, write the destination (transfers), compare against the
    register (compares), update the pointer registers.  The result tells
    whether the user condition matched the compared pair. *)
Definition block_step (b : block_instr) (s : cpu) : cpu * bool :=
  let d := block_delta b in
  match b_kind b with
  | BLD dst src =>
      let v := rd_mem b (mem s) (RW host (regs s) src) in
      let s1 := set_mem s (wr_mem b (mem s) (RW host (regs s) dst) v) in
      let s2 := bump s1 dst d in
      (bump s2 src d, false)
  | BCP data src cc =>
      let v := rd_mem b (mem s) (RW host (regs s) src) in
      let a := read host (regs s) data in
      let f := sub_flags (block_bits b) a v (fcw s) in
      let s1 := set_fcw s f in
      (bump s1 src d, cond_holds cc f)
  | BIN dst port =>
      let v := rd_port b (io s) (RW host (regs s) port) in
      let s1 := set_mem s (wr_mem b (mem s) (RW host (regs s) dst) v) in
      (bump s1 dst d, false)
  | BOUT port src =>
      let v := rd_mem b (mem s) (RW host (regs s) src) in
      let s1 := set_io s (wr_port b (io s) (RW host (regs s) port) v) in
      (bump s1 src d, false)
  end.

(** Modelled from the spec: the block handler of [include/z8000ops.hxx],
    which is not among the sources.  The step, then the count register
    decremented by 1, then V set iff the count became 0.  The instruction
    terminates if it is the non-repeating form, or the count is 0, or the
    condition matched; otherwise it asks to be executed again. *)
Definition block_handler (b : block_instr) (s : cpu) : cpu * bool :=
  let '(s1, matched) := block_step b s in
  let cnt := u16 (RW host (regs s1) (b_cnt b) - 1) in
  let s2 := set_regs s1 (set_RW host (regs s1) (b_cnt b) cnt) in
  let s3 := set_fcw s2 (put_flag F_PV (cnt =? 0) (fcw s2)) in
  let terminate := negb (b_repeat b) || (cnt =? 0) || matched in
  (s3, negb terminate).

(** Modelled from the spec: one pass of the interpreter of
    [src/z8000.cpp], which is not among the sources, over a block
    instruction at PC.  PC moves past the instruction, the handler runs,
    and if it asked for it PC is rewound to the instruction's own
    address. *)
Definition exec_block (b : block_instr) (s : cpu) : cpu * bool :=
  let own := pc s in
  let s0 := set_pc s (u16 (own + instr_len (I_BLOCK b))) in
  let '(s1, again) := block_handler b s0 in
  (if again then set_pc s1 own else s1, again).

(** Modelled from the spec: [execute_instruction()] of [src/z8000.cpp],
    which is not among the sources, on the decoded instruction at PC. *)
Definition execute (i : instr) (s : cpu) : cpu :=
  let s0 := set_pc s (u16 (pc s + instr_len i)) in
  match i with
  | I_HALT => HALT s0
  | I_INC dst imm4 => INC dst imm4 s0
  | I_DEC dst imm4 => DEC dst imm4 s0
  | I_BLOCK b => fst (exec_block b s)
  end.

(** Modelled from the spec: the interpreter loop of [src/z8000.cpp],
    which is not among the sources, on a block instruction.  As long as PC
    was rewound the same instruction is fetched and executed again. *)
Fixpoint run_block (fuel : nat) (b : block_instr) (s : cpu) : option cpu :=
  match fuel with
  | O => None
  | S fuel' =>
      let '(s', again) := exec_block b s in
      if again then run_block fuel' b s' else Some s'
  end.

(** Whether the user condition matches the pair the next pass compares. *)
Definition matched (b : block_instr) (s : cpu) : bool :=
  snd (block_step b s).

(** The state after [k] passes. *)
Fixpoint passes (k : nat) (b : block_instr) (s : cpu) : cpu :=
  match k with
  | O => s
  | S k' => passes k' b (fst (exec_block b s))
  end.

End Host.

(** *** Auxiliary predicates, and the states and instructions of the
    end-to-end scenarios *)

(** A state whose register store is well formed and whose PC and FCW are
    16-bit values. *)
Definition wf_cpu (s : cpu) : Prop :=
  wf_regs (regs s) /\ 0 <= pc s < 2 ^ 16 /\ 0 <= fcw s < 2 ^ 16.

(** The state of the end-to-end scenarios before their first instruction:
    reset vector [00 00 40 00 01 00], a privileged-instruction vector with
    FCW 0x4000 and PC 0x0200, SP = 0x1E00, running in normal mode at
    0x0100. *)
Definition scenario_mem : gmap Z Z :=
  <[0x0002 := 0x40]> (<[0x0003 := 0x00]> (<[0x0004 := 0x01]>
  (<[0x0005 := 0x00]> (<[0x000A := 0x40]> (<[0x000B := 0x00]>
  (<[0x000C := 0x02]> (<[0x000D := 0x00]> ∅))))))).

Definition scenario_state : cpu :=
  mkCpu (set_RW ENDIANNESS_LITTLE (replicate 32 0) SP 0x1E00)
        0x0100 0x0000 0 0 (fun _ => false) false false scenario_mem ∅.

(** Bits of the flag word that INC and DEC leave alone. *)
Definition untouched_by_inc (k : Z) : Prop :=
  0 <= k /\ k <> 2 /\ k <> 4 /\ k <> 5 /\ k <> 6.

(** The end-to-end scenario: INC R3,#1 on R3 = 0x7FFF gives R3 = 0x8000
    with S = 1 and V = 1, C unchanged. *)
Definition inc_scenario_state : cpu :=
  set_regs scenario_state
    (set_RW ENDIANNESS_LITTLE (regs scenario_state) 3 0x7FFF).

(** The state of the block-compare scenario: the five words at 0x1000,
    R3 = 0x3333, R4 = 0x1000, R5 = 5. *)
Definition cpir_mem : gmap Z Z :=
  WRMEM_W (WRMEM_W (WRMEM_W (WRMEM_W (WRMEM_W scenario_mem
    0x1000 0x1111) 0x1002 0x2222) 0x1004 0x3333) 0x1006 0x4444)
    0x1008 0x5555.

Definition cpir_state : cpu :=
  let r := regs scenario_state in
  let r := set_RW ENDIANNESS_LITTLE r 3 0x3333 in
  let r := set_RW ENDIANNESS_LITTLE r 4 0x1000 in
  let r := set_RW ENDIANNESS_LITTLE r 5 5 in
  set_mem (set_regs scenario_state r) cpir_mem.

(** Setting up a test of the suite [test_instructions.s]: word registers
    by index, words and bytes from an address on. *)
Definition with_regs (rs : list (Z * Z)) (s : cpu) : cpu :=
  set_regs s
    (foldl (fun r nv => set_RW ENDIANNESS_LITTLE r (fst nv) (snd nv))
           (regs s) rs).

Definition with_words (a : Z) (ws : list Z) (s : cpu) : cpu :=
  set_mem s
    (fst (foldl (fun ma w => (WRMEM_W (fst ma) (snd ma) w, snd ma + 2))
                (mem s, a) ws)).

Definition with_bytes (a : Z) (bs : list Z) (s : cpu) : cpu :=
  set_mem s
    (fst (foldl (fun ma b => (WRMEM_B (fst ma) (snd ma) b, snd ma + 1))
                (mem s, a) bs)).

(** What the block tests look at afterwards: R3 to R6, then Z and V. *)
Definition observe (o : option cpu) : option (list Z * bool * bool) :=
  match o with
  | Some s =>
      Some (map (RW ENDIANNESS_LITTLE (regs s)) [3; 4; 5; 6],
            flag F_Z (fcw s), flag F_PV (fcw s))
  | None => None
  end.

Definition run_test (b : block_instr) (s : cpu)
  : option (list Z * bool * bool) :=
  observe (run_block ENDIANNESS_LITTLE 16 b s).

(** CPIR R3,@R4,R5,eq *)
Definition CPIR_R3_R4_R5_eq : block_instr :=
  mkBlock (BCP (VRW 3) 4 CC_EQ) false false true 5.



End Z8000.

(** * Part II: properties *)

(** ** Bit-level facts *)

Module BitsFacts.
Import Bits.

Lemma wrap_range w x : 0 <= w -> 0 <= wrap w x < 2 ^ w.
Proof. intros Hw. unfold wrap. apply Z.mod_pos_bound. lia. Qed.

Lemma wrap_small w x : 0 <= x < 2 ^ w -> wrap w x = x.
Proof. intros H. unfold wrap. now apply Z.mod_small. Qed.

Lemma testbit_high k x n :
  0 <= x < 2 ^ k -> 0 <= k <= n -> Z.testbit x n = false.
Proof.
  intros Hx Hk. rewrite <- (Z.mod_small x (2 ^ k)) by exact Hx.
  now apply Z.mod_pow2_bits_high.
Qed.

Lemma bounded_of_bits k x :
  0 <= k -> 0 <= x -> (forall n, k <= n -> Z.testbit x n = false) ->
  0 <= x < 2 ^ k.
Proof.
  intros Hk Hx Hb.
  assert (E : x = x mod 2 ^ k).
  { apply Z.bits_inj'. intros n Hn. rewrite Z.testbit_mod_pow2 by exact Hk.
    destruct (Z.ltb_spec n k) as [Hlt|Hge]; [reflexivity|].
    now rewrite Hb. }
  rewrite E. apply Z.mod_pos_bound. lia.
Qed.

Lemma lor_range k a b :
  0 <= k -> 0 <= a < 2 ^ k -> 0 <= b < 2 ^ k -> 0 <= Z.lor a b < 2 ^ k.
Proof.
  intros Hk Ha Hb. apply bounded_of_bits; [exact Hk| |].
  - apply Z.lor_nonneg. lia.
  - intros n Hn. rewrite Z.lor_spec.
    rewrite (testbit_high k a n), (testbit_high k b n) by lia. reflexivity.
Qed.

Lemma land_range k a m :
  0 <= k -> 0 <= m < 2 ^ k -> 0 <= Z.land a m < 2 ^ k.
Proof.
  intros Hk Hm. apply bounded_of_bits; [exact Hk| |].
  - apply Z.land_nonneg. lia.
  - intros n Hn. rewrite Z.land_spec, (testbit_high k m n) by lia.
    apply andb_false_r.
Qed.

(** Two [k]-bit values with the same low [k] bits are equal. *)
Lemma eq_of_bits k x y :
  0 <= x < 2 ^ k -> 0 <= y < 2 ^ k -> 0 <= k ->
  (forall n, 0 <= n < k -> Z.testbit x n = Z.testbit y n) -> x = y.
Proof.
  intros Hx Hy Hk H. apply Z.bits_inj'. intros n Hn.
  destruct (Z.ltb_spec n k) as [Hlt|Hge].
  - apply H. lia.
  - rewrite (testbit_high k x n), (testbit_high k y n) by lia. reflexivity.
Qed.

(** Bounded quantification over the first [k] bit positions, by
    enumeration. *)
Lemma forall_below (P : Z -> Prop) (k : nat) :
  (forall i : nat, (i < k)%nat -> P (Z.of_nat i)) ->
  forall n, 0 <= n < Z.of_nat k -> P n.
Proof.
  intros H n Hn. rewrite <- (Z2Nat.id n) by lia. apply H. lia.
Qed.

Lemma byte_of_range i x : 0 <= byte_of i x < 2 ^ 8.
Proof. unfold byte_of. apply land_range; [lia|]. change (2 ^ 8) with 256. lia. Qed.

Lemma byte_of_testbit i x n :
  0 <= i -> 0 <= n ->
  Z.testbit (byte_of i x) n = Z.testbit x (n + 8 * i) && (n <? 8).
Proof.
  intros Hi Hn. unfold byte_of. rewrite Z.land_spec, Z.shiftr_spec by exact Hn.
  change 255 with (Z.ones 8). rewrite Z.testbit_ones_nonneg by lia.
  reflexivity.
Qed.

Lemma byte_of_div i x : 0 <= i -> byte_of i x = (x / 2 ^ (8 * i)) mod 256.
Proof.
  intros Hi. unfold byte_of. rewrite Z.shiftr_div_pow2 by lia.
  change 255 with (Z.ones 8). rewrite Z.land_ones by lia. reflexivity.
Qed.

(** A 32-bit value is determined by its four bytes. *)
Lemma bytes_determine32 x y :
  0 <= x < 2 ^ 32 -> 0 <= y < 2 ^ 32 ->
  byte_of 0 x = byte_of 0 y /\ byte_of 1 x = byte_of 1 y /\
  byte_of 2 x = byte_of 2 y /\ byte_of 3 x = byte_of 3 y ->
  x = y.
Proof.
  intros Hx Hy. rewrite !byte_of_div by lia.
  change (2 ^ (8 * 0)) with 1. change (2 ^ (8 * 1)) with 256.
  change (2 ^ (8 * 2)) with 65536. change (2 ^ (8 * 3)) with 16777216.
  change (2 ^ 32) with 4294967296 in *.
  intros (H0 & H1 & H2 & H3). Z.div_mod_to_equations. lia.
Qed.

End BitsFacts.

(** Rewriting the bit of a compound expression down to bits of its
    leaves; the position is expected to be a numeral. *)
Ltac bit_rewrite :=
  repeat first
    [ rewrite Z.lor_spec | rewrite Z.land_spec | rewrite Z.lxor_spec
    | rewrite Z.shiftl_spec by lia | rewrite Z.shiftr_spec by lia
    | rewrite Z.testbit_mod_pow2 by lia
    | rewrite BitsFacts.byte_of_testbit by lia ].

(** Splits a goal [forall n, 0 <= n < k -> P n] into its [k] instances. *)
Ltac each_bit k :=
  match goal with
  | |- forall n, _ <= n < _ -> @?P n => apply (BitsFacts.forall_below P k)
  end;
  let i := fresh "i" in let Hi := fresh "Hi" in
  intros i Hi;
  repeat (destruct i as [|i]; [|try (exfalso; lia)]).

(** ** Properties of the compatibility shim *)

Module EmuFacts.
Import Bits BitsFacts Emu.

(** *** Byte swapping *)

(** Closes a goal on single bits of the bounded operand [v] once every
    position is closed: positions and the bits of constants are computed,
    bits of [v] at or above its width [k] vanish, and the rest is a case
    analysis on the bits of [v] that remain. *)
Ltac bit_close k v Hv :=
  repeat match goal with
         | |- context [Z.of_nat ?i] =>
             let r := eval cbv in (Z.of_nat i) in
             change (Z.of_nat i) with r
         end;
  repeat match goal with
         | |- context [Z.testbit ?x ?n] =>
             let n' := eval cbv in n in
             tryif constr_eq n n' then fail
             else change (Z.testbit x n) with (Z.testbit x n')
         end;
  repeat match goal with
         | |- context [Z.testbit ?x ?n] =>
             tryif is_var x then fail
             else (let r := eval cbv in (Z.testbit x n) in
                   change (Z.testbit x n) with r)
         end;
  repeat match goal with
         | |- context [Z.ltb ?a ?b] =>
             let r := eval cbv in (Z.ltb a b) in
             change (Z.ltb a b) with r
         end;
  repeat match goal with
         | |- context [Z.testbit v (Z.neg ?p)] =>
             rewrite (Z.testbit_neg_r v (Z.neg p)) by lia
         | |- context [Z.testbit v ?n] =>
             rewrite (testbit_high k v n Hv) by lia
         end;
  cbn [andb orb];
  repeat match goal with
         | |- context [Z.testbit v ?n] => destruct (Z.testbit v n)
         end;
  reflexivity.

Lemma swapendian_int16_range v : 0 <= swapendian_int16 v < 2 ^ 16.
Proof. apply wrap_range. lia. Qed.

Lemma swapendian_int16_bytes v :
  0 <= v < 2 ^ 16 ->
  byte_of 0 (swapendian_int16 v) = byte_of 1 v /\
  byte_of 1 (swapendian_int16 v) = byte_of 0 v.
Proof.
  intros Hv.
  split; (apply (eq_of_bits 8); [apply byte_of_range..|lia|]);
    each_bit 8%nat; unfold swapendian_int16, u16, wrap;
    bit_rewrite; bit_close 16 v Hv.
Qed.

Lemma swapendian_int16_involutive v :
  0 <= v < 2 ^ 16 -> swapendian_int16 (swapendian_int16 v) = v.
Proof.
  intros Hv.
  apply (eq_of_bits 16); [apply swapendian_int16_range|exact Hv|lia|].
  each_bit 16%nat; unfold swapendian_int16, u16, wrap;
    bit_rewrite; bit_close 16 v Hv.
Qed.

Lemma swapendian_int32_range w : 0 <= swapendian_int32 w < 2 ^ 32.
Proof.
  unfold swapendian_int32.
  repeat apply lor_range; try lia; apply land_range; try lia;
    split; try lia; reflexivity.
Qed.

Lemma swapendian_int32_bytes w :
  0 <= w < 2 ^ 32 ->
  byte_of 0 (swapendian_int32 w) = byte_of 3 w /\
  byte_of 1 (swapendian_int32 w) = byte_of 2 w /\
  byte_of 2 (swapendian_int32 w) = byte_of 1 w /\
  byte_of 3 (swapendian_int32 w) = byte_of 0 w.
Proof.
  intros Hw.
  repeat split; (apply (eq_of_bits 8); [apply byte_of_range..|lia|]);
    each_bit 8%nat; unfold swapendian_int32, u32, wrap;
    bit_rewrite; bit_close 32 w Hw.
Qed.

Lemma swapendian_int32_involutive w :
  0 <= w < 2 ^ 32 -> swapendian_int32 (swapendian_int32 w) = w.
Proof.
  intros Hw.
  pose proof (swapendian_int32_range w) as Hr.
  destruct (swapendian_int32_bytes w Hw) as (E0 & E1 & E2 & E3).
  destruct (swapendian_int32_bytes _ Hr) as (F0 & F1 & F2 & F3).
  apply bytes_determine32; [apply swapendian_int32_range|exact Hw|].
  rewrite F0, F1, F2, F3, E0, E1, E2, E3. auto.
Qed.

(** C8: [swapendian_int16] exchanges the two bytes of a 16-bit value and
    [swapendian_int32] reverses the four bytes of a 32-bit value; both stay
    within their width and both are involutions. *)
Theorem swapendian_exchange_involutive (v w : Z)
  (Hv : 0 <= v < 2 ^ 16) (Hw : 0 <= w < 2 ^ 32) :
  (byte_of 0 (swapendian_int16 v) = byte_of 1 v /\
   byte_of 1 (swapendian_int16 v) = byte_of 0 v /\
   0 <= swapendian_int16 v < 2 ^ 16 /\
   swapendian_int16 (swapendian_int16 v) = v) /\
  (byte_of 0 (swapendian_int32 w) = byte_of 3 w /\
   byte_of 1 (swapendian_int32 w) = byte_of 2 w /\
   byte_of 2 (swapendian_int32 w) = byte_of 1 w /\
   byte_of 3 (swapendian_int32 w) = byte_of 0 w /\
   0 <= swapendian_int32 w < 2 ^ 32 /\
   swapendian_int32 (swapendian_int32 w) = w).
Proof.
  split.
  - destruct (swapendian_int16_bytes v Hv) as [E0 E1].
    repeat split; auto using swapendian_int16_involutive;
      apply swapendian_int16_range.
  - destruct (swapendian_int32_bytes w Hw) as (E0 & E1 & E2 & E3).
    repeat split; auto using swapendian_int32_involutive;
      apply swapendian_int32_range.
Qed.

Lemma swapendian_exchange_involutive_witness :
  swapendian_int16 0x1234 = 0x3412 /\
  swapendian_int32 0x12345678 = 0x78563412 /\
  swapendian_int16 (swapendian_int16 0x1234) = 0x1234 /\
  swapendian_int32 (swapendian_int32 0x12345678) = 0x12345678.
Proof.
  assert (Hv : 0 <= 0x1234 < 2 ^ 16) by lia.
  assert (Hw : 0 <= 0x12345678 < 2 ^ 32) by lia.
  pose proof (swapendian_exchange_involutive 0x1234 0x12345678 Hv Hw)
    as [(_ & _ & _ & I16) (_ & _ & _ & _ & _ & I32)].
  split; [reflexivity|].
  split; [reflexivity|].
  split; [exact I16|exact I32].
Defined.

(** *** The stub callbacks read zero *)

Lemma array_after_new {T} (zero : T) (defaults : list T) :
  array_after zero defaults = array_new zero.
Proof.
  unfold array_after. induction defaults as [|d ds IH] using rev_ind.
  - reflexivity.
  - rewrite foldl_app. cbn. unfold resolve_all_safe. exact IH.
Qed.

(** C10: whatever default values were passed to [resolve_all_safe], both
    accessors of the stub callback array return 0, for every index and every
    argument; a device read routed through them yields 0. *)
Theorem devcb_array_reads_zero {T} (zero : T) (defaults : list T)
  (index param : Z) :
  array_index (array_after zero defaults) index = zero /\
  array_call (array_after zero defaults) param = zero.
Proof. rewrite array_after_new. split; reflexivity. Qed.

(** *** [string_format] truncates at 255 characters *)

Lemma c_str_length buf : (length (c_str buf) <= length buf)%nat.
Proof.
  induction buf as [|c rest IH]; cbn; [lia|].
  destruct (Ascii.eqb c NUL); cbn; lia.
Qed.

Lemma c_str_terminated (room : nat) (out rest : list ascii) :
  c_str (take room out ++ NUL :: rest) = take room (c_str out).
Proof.
  revert room. induction out as [|c out IH]; intros room.
  - rewrite take_nil. cbn. now rewrite take_nil.
  - destruct room as [|room]; cbn.
    + now destruct (Ascii.eqb c NUL).
    + destruct (Ascii.eqb c NUL); cbn; [reflexivity|]. now rewrite IH.
Qed.

(** C9: [string_format] returns the expansion cut at 255 characters (and
    at a NUL the expansion may contain), whatever the buffer held before:
    the result never exceeds 255 characters, and a longer expansion is
    truncated, not extended. *)
Theorem string_format_truncates {Fmt Args : Type}
  (expand : Fmt -> Args -> list ascii) (indet : nat -> ascii)
  (fmt : Fmt) (args : Args) :
  string_format expand indet fmt args = take 255 (c_str (expand fmt args)) /\
  (length (string_format expand indet fmt args) <= 255)%nat /\
  length (string_format expand indet fmt args)
    = Nat.min 255 (length (c_str (expand fmt args))).
Proof.
  assert (E : string_format expand indet fmt args
              = take 255 (c_str (expand fmt args))).
  { unfold string_format, snprintf. rewrite <- app_assoc. cbn [app].
    apply c_str_terminated. }
  rewrite E, length_take. repeat split; lia.
Qed.

End EmuFacts.

(** ** Properties of the register file *)

Module RegFileFacts.
Import Bits BitsFacts Emu RegFile.

(** *** Proof automation for the register file *)

(** Names the 32 bytes of a well-formed store and records their ranges. *)
Ltac explode_regs r Hwf :=
  let Hlen := fresh "Hlen" in
  let Hall := fresh "Hall" in
  destruct Hwf as [Hlen Hall];
  do 32 (destruct r as [|? r]; [discriminate Hlen|]);
  destruct r; [clear Hlen|discriminate Hlen];
  repeat (apply Forall_cons in Hall; destruct Hall as [? Hall]);
  clear Hall.

(** Turns shifts and masks into division and remainder, for [lia]. *)
Ltac to_div_mod :=
  unfold u8, u16, u32, wrap in *;
  repeat rewrite Z.shiftr_div_pow2 by lia;
  repeat rewrite Z.shiftl_mul_pow2 by lia;
  change 255 with (Z.ones 8) in *;
  repeat rewrite Z.land_ones by lia;
  repeat match goal with
         | |- context [2 ^ ?k] =>
             let r := eval cbv in (2 ^ k) in change (2 ^ k) with r
         end.

(** Evaluates the accessors on a store whose bytes are named and whose
    indices are closed: the index arithmetic is computed, then the list
    operations. *)
Ltac regs_compute :=
  cbv [read write Spec.read Spec.write words RW RHb RLb RL RQ W L B
       set_RW set_RHb set_RLb set_RL set_RQ set_W set_L set_B
       RB_index_high RB_index_low Spec.slot Spec.set_slot
       BYTE4_XOR_BE BYTE8_XOR_BE BYTE_XOR_BE map seq];
  repeat match goal with
         | |- context [Z.to_nat ?e] =>
             let r := eval vm_compute in (Z.to_nat e) in
             progress change (Z.to_nat e) with r
         end;
  cbv [lookup_total list_lookup_total insert list_insert].

Ltac arith_close :=
  first [ reflexivity | lia
        | to_div_mod; first [reflexivity | lia | Z.div_mod_to_equations; lia] ].

(** Splits a validity hypothesis into the range of the index (and its
    alignment), ready for enumeration. *)
Ltac view_cases vw Hv :=
  destruct vw as [k|k|n|n|n]; cbn [valid_view] in Hv;
  rewrite ?andb_true_iff, ?Z.leb_le, ?Z.ltb_lt, ?Z.eqb_eq in Hv;
  [ assert (Hk : 0 <= k < Z.of_nat 8) by lia; clear Hv; revert k Hk
  | assert (Hk : 0 <= k < Z.of_nat 8) by lia; clear Hv; revert k Hk
  | assert (Hn : 0 <= n < Z.of_nat 16) by lia; clear Hv; revert n Hn
  | destruct Hv as [Hn He];
    assert (Hn' : 0 <= n < Z.of_nat 16) by lia; clear Hn; revert n Hn' He
  | destruct Hv as [Hn He];
    assert (Hn' : 0 <= n < Z.of_nat 16) by lia; clear Hn; revert n Hn' He ].

Lemma read_words host r vw :
  wf_regs r -> valid_view vw = true ->
  read host r vw = Spec.read (words host r) vw.
Proof.
  intros Hwf Hv. explode_regs r Hwf. view_cases vw Hv.
  - each_bit 8%nat; destruct host; regs_compute; arith_close.
  - each_bit 8%nat; destruct host; regs_compute; arith_close.
  - each_bit 16%nat; destruct host; regs_compute; arith_close.
  - each_bit 16%nat; intros He; try discriminate He; destruct host;
      regs_compute; arith_close.
  - each_bit 16%nat; intros He; try discriminate He; destruct host;
      regs_compute; arith_close.
Qed.

Ltac list_close :=
  repeat (apply (f_equal2 cons); [arith_close|]); reflexivity.

Lemma set_B_wf r i v : wf_regs r -> wf_regs (set_B r i v).
Proof.
  intros [Hlen Hall]. unfold set_B. split.
  - now rewrite length_insert.
  - apply Forall_insert; [exact Hall|]. apply (wrap_range 8). lia.
Qed.

Lemma set_W_wf host r i v : wf_regs r -> wf_regs (set_W host r i v).
Proof. intros H. unfold set_W. destruct host; auto using set_B_wf. Qed.

Lemma set_L_wf host r i v : wf_regs r -> wf_regs (set_L host r i v).
Proof. intros H. unfold set_L. destruct host; auto using set_W_wf. Qed.

Lemma write_wf host r vw v : wf_regs r -> wf_regs (write host r vw v).
Proof.
  intros H. destruct vw; cbn [write];
    unfold set_RHb, set_RLb, set_RW, set_RQ, set_RL;
    auto using set_B_wf, set_W_wf, set_L_wf.
Qed.

Lemma writes_wf host ws r : wf_regs r -> wf_regs (writes host r ws).
Proof.
  unfold writes. revert r. induction ws as [|w ws IH]; intros r H; cbn.
  - exact H.
  - apply IH. now apply write_wf.
Qed.

Lemma words_write host r vw v :
  wf_regs r -> valid_view vw = true ->
  words host (write host r vw v) = Spec.write (words host r) vw v.
Proof.
  intros Hwf Hv. explode_regs r Hwf. view_cases vw Hv.
  - each_bit 8%nat; destruct host; regs_compute; list_close.
  - each_bit 8%nat; destruct host; regs_compute; list_close.
  - each_bit 16%nat; destruct host; regs_compute; list_close.
  - each_bit 16%nat; intros He; try discriminate He; destruct host;
      regs_compute; list_close.
  - each_bit 16%nat; intros He; try discriminate He; destruct host;
      regs_compute; list_close.
Qed.

Lemma read_write_same host r vw v :
  wf_regs r -> valid_view vw = true ->
  read host (write host r vw v) vw = wrap (view_bits vw) v.
Proof.
  intros Hwf Hv. explode_regs r Hwf. view_cases vw Hv.
  - each_bit 8%nat; destruct host; regs_compute; reflexivity.
  - each_bit 8%nat; destruct host; regs_compute; reflexivity.
  - each_bit 16%nat; destruct host; regs_compute; cbn [view_bits];
      arith_close.
  - each_bit 16%nat; intros He; try discriminate He; destruct host;
      regs_compute; cbn [view_bits]; arith_close.
  - each_bit 16%nat; intros He; try discriminate He; destruct host;
      regs_compute; cbn [view_bits]; arith_close.
Qed.

Lemma words_writes host ws r :
  wf_regs r -> Forall (fun w => valid_view (fst w) = true) ws ->
  words host (writes host r ws) = spec_writes (words host r) ws.
Proof.
  unfold writes, spec_writes. revert r.
  induction ws as [|w ws IH]; intros r Hwf Hws; cbn [foldl].
  - reflexivity.
  - apply Forall_cons in Hws. destruct Hws as [Hw Hws].
    rewrite IH by (auto using write_wf). now rewrite words_write.
Qed.

Lemma long_write_example host r :
  wf_regs r ->
  let r' := write host r (VRR 0) 0x11223344 in
  RW host r' 0 = 0x1122 /\ RW host r' 1 = 0x3344 /\
  RHb host r' 0 = 0x11 /\ RLb host r' 0 = 0x22 /\
  RHb host r' 1 = 0x33 /\ RLb host r' 1 = 0x44.
Proof.
  intros Hwf r'. subst r'. explode_regs r Hwf.
  destruct host; regs_compute; repeat split; reflexivity.
Qed.

Lemma word_write_bytes host r n v :
  wf_regs r -> 0 <= n < 8 -> 0 <= v < 2 ^ 16 ->
  RHb host (write host r (VRW n) v) n = Z.shiftr v 8 /\
  RLb host (write host r (VRW n) v) n = Z.land v 0xFF.
Proof.
  intros Hwf Hn Hv. explode_regs r Hwf.
  assert (Hn' : 0 <= n < Z.of_nat 8) by lia. clear Hn. revert n Hn'.
  each_bit 8%nat; destruct host; regs_compute; split; arith_close.
Qed.

(** *** Word registers, for the CPU core *)

Lemma words_length host r : length (words host r) = 16%nat.
Proof. reflexivity. Qed.

Lemma RW_slot host r n :
  0 <= n < 16 -> RW host r n = Spec.slot (words host r) n.
Proof.
  intros Hn. assert (Hn' : 0 <= n < Z.of_nat 16) by lia. clear Hn.
  revert n Hn'. each_bit 16%nat; reflexivity.
Qed.

Lemma RW_range host r n :
  wf_regs r -> 0 <= n < 16 -> 0 <= RW host r n < 2 ^ 16.
Proof.
  intros Hwf Hn. explode_regs r Hwf.
  assert (Hn' : 0 <= n < Z.of_nat 16) by lia. clear Hn. revert n Hn'.
  each_bit 16%nat; destruct host; regs_compute; lia.
Qed.

Lemma RW_set_RW_same host r n v :
  wf_regs r -> 0 <= n < 16 -> RW host (set_RW host r n v) n = u16 v.
Proof.
  intros Hwf Hn. change (set_RW host r n v) with (write host r (VRW n) v).
  rewrite RW_slot by exact Hn.
  rewrite words_write by (try assumption; cbn; lia).
  cbn [Spec.write]. unfold Spec.slot, Spec.set_slot.
  apply list_lookup_total_insert_eq. rewrite words_length. lia.
Qed.

Lemma RW_set_RW_other host r n m v :
  wf_regs r -> 0 <= n < 16 -> 0 <= m < 16 -> n <> m ->
  RW host (set_RW host r n v) m = RW host r m.
Proof.
  intros Hwf Hn Hm Hne.
  change (set_RW host r n v) with (write host r (VRW n) v).
  rewrite !RW_slot by exact Hm.
  rewrite words_write by (try assumption; cbn; lia).
  cbn [Spec.write]. unfold Spec.slot, Spec.set_slot.
  apply list_lookup_total_insert_ne. lia.
Qed.

Lemma set_RW_wf host r n v : wf_regs r -> wf_regs (set_RW host r n v).
Proof. intros H. now apply (write_wf host r (VRW n) v). Qed.

Lemma read_range host r vw :
  wf_regs r -> valid_view vw = true ->
  0 <= read host r vw < 2 ^ view_bits vw.
Proof.
  intros Hwf Hv. explode_regs r Hwf. view_cases vw Hv.
  - each_bit 8%nat; destruct host; regs_compute; cbn [view_bits]; lia.
  - each_bit 8%nat; destruct host; regs_compute; cbn [view_bits]; lia.
  - each_bit 16%nat; destruct host; regs_compute; cbn [view_bits]; lia.
  - each_bit 16%nat; intros He; try discriminate He; destruct host;
      regs_compute; cbn [view_bits]; lia.
  - each_bit 16%nat; intros He; try discriminate He; destruct host;
      regs_compute; cbn [view_bits]; lia.
Qed.

(** *** Reads return the most recently written slices *)

Ltac bytes_compute :=
  cbv [be_value view_first view_len view_bits arch_byte covers slice];
  repeat match goal with
         | |- context [seqZ ?a ?b] =>
             let r := eval vm_compute in (seqZ a b) in
             change (seqZ a b) with r
         end;
  cbv [foldl];
  regs_compute.

Lemma read_bytes host r vw :
  wf_regs r -> valid_view vw = true ->
  read host r vw = be_value (arch_byte host r) vw.
Proof.
  intros Hwf Hv. explode_regs r Hwf. view_cases vw Hv.
  - each_bit 8%nat; destruct host; bytes_compute; lia.
  - each_bit 8%nat; destruct host; bytes_compute; lia.
  - each_bit 16%nat; destruct host; bytes_compute; lia.
  - each_bit 16%nat; intros He; try discriminate He; destruct host;
      bytes_compute; lia.
  - each_bit 16%nat; intros He; try discriminate He; destruct host;
      bytes_compute; lia.
Qed.

Lemma u8_land x : u8 x = Z.land x 255.
Proof. unfold u8, wrap. change 255 with (Z.ones 8). now rewrite Z.land_ones by lia. Qed.

(** Brings a byte of a written value to the form [byte_of i v]. *)
Ltac byte_norm :=
  unfold byte_of; rewrite ?u8_land;
  repeat rewrite Z.shiftr_shiftr by lia;
  repeat match goal with
         | |- context [Z.shiftr ?v ?k] =>
             let k' := eval vm_compute in k in
             progress change (Z.shiftr v k) with (Z.shiftr v k')
         end;
  rewrite ?Z.shiftr_0_r;
  reflexivity.

Ltac covers_compute :=
  repeat match goal with
         | |- context [?a <=? ?b] =>
             let r := eval vm_compute in (a <=? b) in
             change (a <=? b) with r
         | |- context [?a <? ?b] =>
             let r := eval vm_compute in (a <? b) in
             change (a <? b) with r
         end;
  cbv [andb].

Lemma arch_byte_write host r vw v p :
  wf_regs r -> valid_view vw = true -> 0 <= p < 32 ->
  arch_byte host (write host r vw v) p
  = if covers vw p then slice vw v p else arch_byte host r p.
Proof.
  intros Hwf Hv Hp. explode_regs r Hwf.
  assert (Hp' : 0 <= p < Z.of_nat 32) by lia. clear Hp. revert p Hp'.
  view_cases vw Hv.
  - each_bit 8%nat; each_bit 32%nat; destruct host; bytes_compute;
      covers_compute; first [reflexivity | byte_norm].
  - each_bit 8%nat; each_bit 32%nat; destruct host; bytes_compute;
      covers_compute; first [reflexivity | byte_norm].
  - each_bit 16%nat; each_bit 32%nat; destruct host; bytes_compute;
      covers_compute; first [reflexivity | byte_norm].
  - each_bit 16%nat; intros He; try discriminate He; each_bit 32%nat;
      destruct host; bytes_compute; covers_compute;
      first [reflexivity | byte_norm].
  - each_bit 16%nat; intros He; try discriminate He; each_bit 32%nat;
      destruct host; bytes_compute; covers_compute;
      first [reflexivity | byte_norm].
Qed.

Lemma be_value_ext f g vw :
  valid_view vw = true ->
  (forall p, 0 <= p < 32 -> f p = g p) ->
  be_value f vw = be_value g vw.
Proof.
  intros Hv H. view_cases vw Hv.
  - each_bit 8%nat; bytes_compute; rewrite !H by lia; reflexivity.
  - each_bit 8%nat; bytes_compute; rewrite !H by lia; reflexivity.
  - each_bit 16%nat; bytes_compute; rewrite !H by lia; reflexivity.
  - each_bit 16%nat; intros He; try discriminate He; bytes_compute;
      rewrite !H by lia; reflexivity.
  - each_bit 16%nat; intros He; try discriminate He; bytes_compute;
      rewrite !H by lia; reflexivity.
Qed.

Lemma writes_snoc host r ws w :
  writes host r (ws ++ [w]) = write host (writes host r ws) (fst w) (snd w).
Proof. unfold writes. now rewrite foldl_app. Qed.

Lemma arch_byte_writes host ws r p :
  wf_regs r -> Forall (fun w => valid_view (fst w) = true) ws ->
  0 <= p < 32 ->
  arch_byte host (writes host r ws) p
  = last_written (arch_byte host r) ws p.
Proof.
  intros Hwf Hws Hp. induction ws as [|w ws IH] using rev_ind.
  - reflexivity.
  - apply Forall_app in Hws. destruct Hws as [Hws Hw].
    apply Forall_cons in Hw. destruct Hw as [Hw _].
    rewrite writes_snoc, arch_byte_write by (auto using writes_wf).
    unfold last_written. rewrite rev_app_distr. cbn [rev app most_recent].
    destruct (covers (fst w) p); [reflexivity|].
    rewrite IH by exact Hws. reflexivity.
Qed.

Lemma read_last_written host r ws vw :
  wf_regs r -> Forall (fun w => valid_view (fst w) = true) ws ->
  valid_view vw = true ->
  read host (writes host r ws) vw
  = be_value (last_written (arch_byte host r) ws) vw.
Proof.
  intros Hwf Hws Hv. rewrite read_bytes by (auto using writes_wf).
  apply be_value_ext; [exact Hv|].
  intros p Hp. now apply arch_byte_writes.
Qed.

(** C3: on either host byte order, after any sequence of writes through
    byte, word, long and quad views a read through any view returns, byte
    for byte, the slice of the most recently written value that covers it;
    it is the slice that the sixteen-slot register file of the
    specification holds there, and reading back the view just written
    returns the written value.  Writing the long RR0 = 0x11223344 gives
    R0 = 0x1122, R1 = 0x3344, RH0 = 0x11, RL0 = 0x22, RH1 = 0x33,
    RL1 = 0x44; a word W written to Rn, n in 0..7, reads back as
    RHn = W >> 8 and RLn = W & 0xFF. *)
Theorem register_views_alias (host : endianness_t) (r : list Z)
  (ws : list (view * Z)) (vw : view) (v : Z) (n : Z) (w : Z)
  (Hwf : wf_regs r)
  (Hws : Forall (fun x => valid_view (fst x) = true) ws)
  (Hvw : valid_view vw = true)
  (Hn : 0 <= n < 8) (Hw : 0 <= w < 2 ^ 16) :
  let r' := writes host r ws in
  read host r' vw = be_value (last_written (arch_byte host r) ws) vw /\
  read host r' vw = Spec.read (spec_writes (words host r) ws) vw /\
  read host (write host r' vw v) vw = wrap (view_bits vw) v /\
  (let r2 := write host r' (VRR 0) 0x11223344 in
   RW host r2 0 = 0x1122 /\ RW host r2 1 = 0x3344 /\
   RHb host r2 0 = 0x11 /\ RLb host r2 0 = 0x22 /\
   RHb host r2 1 = 0x33 /\ RLb host r2 1 = 0x44) /\
  (let r3 := write host r' (VRW n) w in
   RHb host r3 n = Z.shiftr w 8 /\ RLb host r3 n = Z.land w 0xFF).
Proof.
  intros r'. assert (Hwf' : wf_regs r') by now apply writes_wf.
  split; [|split; [|split; [|split]]].
  - now apply read_last_written.
  - rewrite read_words by assumption. unfold r'.
    now rewrite words_writes.
  - now apply read_write_same.
  - now apply long_write_example.
  - now apply word_write_bytes.
Qed.

Lemma register_views_alias_witness :
  let r := replicate 32 0 in
  let ws := [(VRR 0, 0x11223344); (VRL 1, 0xAB); (VRQ 4, 0x0102030405060708)] in
  read ENDIANNESS_LITTLE (writes ENDIANNESS_LITTLE r ws) (VRW 1)
  = Spec.read (spec_writes (words ENDIANNESS_LITTLE r) ws) (VRW 1) /\
  read ENDIANNESS_LITTLE (writes ENDIANNESS_LITTLE r ws) (VRW 1) = 0x33AB.
Proof.
  intros r ws.
  assert (Hwf : wf_regs r).
  { split; [reflexivity|]. apply Forall_forall. intros b Hb.
    apply elem_of_replicate in Hb. destruct Hb as [-> _]. lia. }
  assert (Hws : Forall (fun x => valid_view (fst x) = true) ws)
    by (repeat constructor).
  assert (Hvw : valid_view (VRW 1) = true) by reflexivity.
  assert (Hn : 0 <= 3 < 8) by lia.
  assert (Hw : 0 <= 0xBEEF < 2 ^ 16) by lia.
  pose proof (register_views_alias ENDIANNESS_LITTLE r ws (VRW 1) 0x5678
                3 0xBEEF Hwf Hws Hvw Hn Hw) as (_ & E & _).
  split; [exact E|reflexivity].
Defined.

End RegFileFacts.

(** ** Properties of the CPU core *)

Module Z8000Facts.
Import Bits BitsFacts Emu RegFile RegFileFacts Z8000.

(** *** Flags *)

Lemma land_pow2 f k :
  0 <= k -> Z.land f (2 ^ k) = if Z.testbit f k then 2 ^ k else 0.
Proof.
  intros Hk. apply Z.bits_inj'. intros n Hn.
  rewrite Z.land_spec, Z.pow2_bits_eqb by exact Hk.
  destruct (Z.eqb_spec k n) as [->|Hne].
  - destruct (Z.testbit f n) eqn:E; cbn.
    + rewrite Z.pow2_bits_eqb by exact Hn. now rewrite Z.eqb_refl.
    + now rewrite Z.bits_0.
  - rewrite andb_false_r. destruct (Z.testbit f k).
    + rewrite Z.pow2_bits_eqb by exact Hk.
      symmetry. now apply Z.eqb_neq.
    + now rewrite Z.bits_0.
Qed.

Lemma flag_testbit k f : 0 <= k -> flag (2 ^ k) f = Z.testbit f k.
Proof.
  intros Hk. unfold flag. rewrite land_pow2 by exact Hk.
  destruct (Z.testbit f k); [|reflexivity].
  assert (0 < 2 ^ k) by (apply Z.pow_pos_nonneg; lia).
  destruct (Z.eqb_spec (2 ^ k) 0); [lia|reflexivity].
Qed.

Lemma put_flag_testbit k b f n :
  0 <= k -> 0 <= n ->
  Z.testbit (put_flag (2 ^ k) b f) n
  = if n =? k then b else Z.testbit f n.
Proof.
  intros Hk Hn. unfold put_flag. destruct b.
  - rewrite Z.lor_spec, Z.pow2_bits_eqb by exact Hk.
    rewrite (Z.eqb_sym k n). destruct (n =? k).
    + apply orb_true_r.
    + apply orb_false_r.
  - rewrite Z.ldiff_spec, Z.pow2_bits_eqb by exact Hk.
    rewrite (Z.eqb_sym k n). destruct (n =? k); cbn.
    + apply andb_false_r.
    + apply andb_true_r.
Qed.

(** *** Memory *)

Lemma RDMEM_B_WRMEM_B m a v a' :
  RDMEM_B (WRMEM_B m a v) a'
  = if u16 a =? u16 a' then u8 v else RDMEM_B m a'.
Proof.
  unfold RDMEM_B, WRMEM_B. destruct (Z.eqb_spec (u16 a) (u16 a')) as [E|E].
  - rewrite E, lookup_insert_eq. reflexivity.
  - rewrite lookup_insert_ne by exact E. reflexivity.
Qed.

Lemma u16_succ_ne a : u16 a <> u16 (a + 1).
Proof. unfold u16, wrap. change (2 ^ 16) with 65536. Z.div_mod_to_equations. lia. Qed.

Lemma word_of_bytes v : u8 (Z.shiftr v 8) * 256 + u8 v = u16 v.
Proof. to_div_mod. Z.div_mod_to_equations. lia. Qed.

Lemma RDMEM_W_WRMEM_W_same m a v : RDMEM_W (WRMEM_W m a v) a = u16 v.
Proof.
  unfold RDMEM_W, WRMEM_W. rewrite !RDMEM_B_WRMEM_B.
  rewrite !Z.eqb_refl.
  destruct (Z.eqb_spec (u16 (a + 1)) (u16 a)) as [E|_];
    [symmetry in E; now apply u16_succ_ne in E|].
  apply word_of_bytes.
Qed.

Lemma RDMEM_W_WRMEM_W_other m a v a' :
  u16 a' <> u16 a -> u16 a' <> u16 (a + 1) ->
  u16 (a' + 1) <> u16 a -> u16 (a' + 1) <> u16 (a + 1) ->
  RDMEM_W (WRMEM_W m a v) a' = RDMEM_W m a'.
Proof.
  intros H1 H2 H3 H4. unfold RDMEM_W, WRMEM_W. rewrite !RDMEM_B_WRMEM_B.
  repeat match goal with
         | |- context [?x =? ?y] => destruct (Z.eqb_spec x y); [congruence|]
         end.
  reflexivity.
Qed.

Lemma u16_add_l a b : u16 (u16 a + b) = u16 (a + b).
Proof. unfold u16, wrap. apply Zplus_mod_idemp_l. Qed.

Lemma u16_sub_l a b : u16 (u16 a - b) = u16 (a - b).
Proof. unfold u16, wrap. apply Zminus_mod_idemp_l. Qed.

Lemma u16_idem a : u16 (u16 a) = u16 a.
Proof. unfold u16, wrap. apply Z.mod_mod. lia. Qed.

Lemma RDMEM_W_u16 m a : RDMEM_W m (u16 a) = RDMEM_W m a.
Proof.
  unfold RDMEM_W, RDMEM_B. now rewrite u16_idem, u16_add_l.
Qed.

Lemma WRMEM_W_u16 m a v : WRMEM_W m (u16 a) v = WRMEM_W m a v.
Proof.
  unfold WRMEM_W, WRMEM_B. now rewrite u16_idem, u16_add_l.
Qed.

(** *** Trap entry *)

Section Host.
Variable host : endianness_t.

Lemma PUSHW_sp s v :
  wf_regs (regs s) ->
  RW host (regs (PUSHW host s v)) SP = u16 (RW host (regs s) SP - 2).
Proof.
  intros Hwf. unfold PUSHW. cbn [regs set_mem set_regs].
  rewrite RW_set_RW_same by (try assumption; unfold SP; lia).
  unfold u16, wrap. apply Z.mod_mod. lia.
Qed.

Lemma PUSHW_wf s v : wf_regs (regs s) -> wf_regs (regs (PUSHW host s v)).
Proof. intros H. unfold PUSHW. cbn [regs set_mem set_regs]. now apply set_RW_wf. Qed.

Lemma PUSHW_mem s v :
  mem (PUSHW host s v)
  = WRMEM_W (mem s) (u16 (RW host (regs s) SP - 2)) v.
Proof. reflexivity. Qed.

End Host.

Lemma scenario_state_wf : wf_cpu scenario_state.
Proof.
  split; [|cbn; lia]. apply set_RW_wf. split; [reflexivity|].
  apply Forall_forall. intros b Hb. apply elem_of_replicate in Hb.
  destruct Hb as [-> _]. lia.
Qed.



(** In system mode HALT halts. *)
Lemma HALT_system_mode host s :
  Z.testbit (fcw s) 14 = true ->
  execute host I_HALT s = set_halt (set_pc s (u16 (pc s + 2))) true.
Proof.
  intros H. unfold execute, HALT. cbn [fcw set_pc instr_len].
  change F_S_N with (2 ^ 14). rewrite flag_testbit by lia. now rewrite H.
Qed.

(** C6: in normal mode (FCW bit 14 clear) executing HALT leaves the halt
    flag as it was and raises a privileged-instruction trap: the post-state
    is the post-state of the trap-entry protocol on that opcode, with the
    old FCW and the old PC on the stack and the new FCW and PC loaded from
    the privileged-instruction vector. *)
Theorem halt_normal_mode_traps (host : endianness_t) (s : cpu)
  (Hwf : wf_cpu s) (Hmode : Z.testbit (fcw s) 14 = false) :
  let s' := execute host I_HALT s in
  let sp := RW host (regs s) SP in
  halt s' = halt s /\
  s' = trap_entry host T_PRIV HALT_OPCODE (set_pc s (u16 (pc s + 2))) /\
  RDMEM_W (mem s') (sp - 2) = fcw s /\
  RDMEM_W (mem s') (sp - 4) = u16 (pc s + 2) /\
  RW host (regs s') SP = u16 (sp - 4) /\
  fcw s' = RDMEM_W (mem s') (psap s + vector_fcw T_PRIV) /\
  pc s' = RDMEM_W (mem s') (psap s + vector_pc T_PRIV) /\
  irq_req s' T_PRIV = false.
Proof.
  intros s' sp. destruct Hwf as (Hr & Hpc & Hfcw).
  assert (E : s' = trap_entry host T_PRIV HALT_OPCODE
                     (set_pc s (u16 (pc s + 2)))).
  { unfold s', execute, HALT. cbn [fcw set_pc instr_len].
    change F_S_N with (2 ^ 14). rewrite flag_testbit by lia.
    now rewrite Hmode. }
  set (s0 := set_pc s (u16 (pc s + 2))) in *.
  set (s1 := PUSHW host s0 (fcw s0)).
  set (s2 := PUSHW host s1 (pc s0)).
  assert (Hr1 : wf_regs (regs s1)) by (apply PUSHW_wf; exact Hr).
  assert (Hsp1 : RW host (regs s1) SP = u16 (sp - 2))
    by (apply PUSHW_sp; exact Hr).
  assert (Hsp2 : RW host (regs s2) SP = u16 (sp - 4)).
  { unfold s2. rewrite PUSHW_sp by exact Hr1. rewrite Hsp1, u16_sub_l.
    f_equal. lia. }
  assert (Hm : mem s2
               = WRMEM_W (WRMEM_W (mem s) (sp - 2) (fcw s)) (sp - 4)
                         (u16 (pc s + 2))).
  { unfold s2. rewrite PUSHW_mem, Hsp1, u16_sub_l, WRMEM_W_u16.
    unfold s1. rewrite PUSHW_mem, WRMEM_W_u16.
    replace (sp - 2 - 2) with (sp - 4) by lia. reflexivity. }
  assert (Er : regs s' = regs s2) by (rewrite E; reflexivity).
  assert (Em : mem s' = mem s2) by (rewrite E; reflexivity).
  assert (Eh : halt s' = halt s) by (rewrite E; reflexivity).
  split; [exact Eh|]. split; [exact E|].
  rewrite Em, Er, Hm.
  split.
  { rewrite RDMEM_W_WRMEM_W_other, RDMEM_W_WRMEM_W_same.
    - now apply wrap_small.
    - unfold u16, wrap. change (2 ^ 16) with 65536.
      Z.div_mod_to_equations. lia.
    - unfold u16, wrap. change (2 ^ 16) with 65536.
      Z.div_mod_to_equations. lia.
    - unfold u16, wrap. change (2 ^ 16) with 65536.
      Z.div_mod_to_equations. lia.
    - unfold u16, wrap. change (2 ^ 16) with 65536.
      Z.div_mod_to_equations. lia. }
  split; [rewrite RDMEM_W_WRMEM_W_same; apply u16_idem|].
  split; [exact Hsp2|].
  rewrite <- Hm, <- Em, E. repeat split.
Qed.

Lemma halt_normal_mode_traps_witness :
  let s' := execute ENDIANNESS_LITTLE I_HALT scenario_state in
  halt s' = false /\ pc s' = 0x0200 /\ fcw s' = 0x4000 /\
  RDMEM_W (mem s') 0x1DFE = 0x0000 /\ RDMEM_W (mem s') 0x1DFC = 0x0102.
Proof.
  assert (Hmode : Z.testbit (fcw scenario_state) 14 = false) by reflexivity.
  pose proof (halt_normal_mode_traps ENDIANNESS_LITTLE scenario_state
                scenario_state_wf Hmode) as (Hh & _).
  split; [exact Hh|]. vm_compute. repeat split.
Defined.

(** C2: reset and creation load the FCW from the memory word at address 2
    and the PC from the memory word at address 4, with PSAP = 0; they clear
    the pending-interrupt latches, the halt flag and the refresh register;
    the general registers are whatever they were. *)
Theorem reset_loads_vector_and_clears (s : cpu) (r0 : list Z)
  (m p : gmap Z Z) :
  (let s' := reset s in
   fcw s' = RDMEM_W (mem s) 2 /\ pc s' = RDMEM_W (mem s) 4 /\
   psap s' = 0 /\
   (forall t, irq_req s' t = false) /\ nmi_pending s' = false /\
   halt s' = false /\ refresh s' = 0 /\
   regs s' = regs s /\ mem s' = mem s) /\
  (let c := create r0 m p in
   fcw c = RDMEM_W m 2 /\ pc c = RDMEM_W m 4 /\
   psap c = 0 /\
   (forall t, irq_req c t = false) /\ nmi_pending c = false /\
   halt c = false /\ refresh c = 0 /\
   regs c = r0 /\ mem c = m).
Proof. repeat split. Qed.

(** *** INC and DEC *)

Lemma testbit_top w x :
  0 < w -> 0 <= x < 2 ^ w -> Z.testbit x (w - 1) = (2 ^ (w - 1) <=? x).
Proof.
  intros Hw Hx.
  assert (Hp : 2 ^ w = 2 * 2 ^ (w - 1)).
  { rewrite <- Z.pow_succ_r by lia. f_equal. lia. }
  assert (Hpos : 0 < 2 ^ (w - 1)) by (apply Z.pow_pos_nonneg; lia).
  rewrite Z.testbit_eqb by lia.
  destruct (Z.leb_spec (2 ^ (w - 1)) x) as [Hle|Hlt].
  - assert (E : x / 2 ^ (w - 1) = 1)
      by (symmetry; apply Z.div_unique with (r := x - 2 ^ (w - 1)); lia).
    now rewrite E.
  - rewrite Z.div_small by lia. reflexivity.
Qed.

(** The sign-bit formula of addition, for a small positive addend: the
    operand is non-negative and the result negative. *)
Lemma add_overflow_bit w a n :
  (w = 8 \/ w = 16) -> 0 <= a < 2 ^ w -> 1 <= n <= 16 ->
  Z.testbit (Z.land (Z.lnot (Z.lxor a n)) (Z.lxor a (wrap w (a + n)))) (w - 1)
  = (a <? 2 ^ (w - 1)) && (2 ^ (w - 1) <=? a + n).
Proof.
  intros Hw Ha Hn.
  rewrite Z.land_spec, Z.lnot_spec, !Z.lxor_spec by lia.
  rewrite (testbit_top w a) by lia.
  rewrite (testbit_top w n) by (destruct Hw; subst w; lia).
  rewrite (testbit_top w (wrap w (a + n))) by (try apply wrap_range; lia).
  unfold wrap.
  destruct Hw; subst w; cbn [Z.sub Z.add Z.opp Z.pos_sub Z.succ_double
                               Z.pred_double Z.double Pos.pred_double] in *;
    repeat match goal with
           | |- context [2 ^ ?k] =>
               let r := eval cbv in (2 ^ k) in change (2 ^ k) with r
           | H : context [2 ^ ?k] |- _ =>
               let r := eval cbv in (2 ^ k) in change (2 ^ k) with r in H
           end;
    repeat match goal with
           | |- context [?x <=? ?y] => destruct (Z.leb_spec x y)
           | |- context [?x <? ?y] => destruct (Z.ltb_spec x y)
           end; cbn; try reflexivity; exfalso; Z.div_mod_to_equations; lia.
Qed.

(** The sign-bit formula of subtraction, for a small positive subtrahend:
    the operand is negative and the result non-negative. *)
Lemma sub_overflow_bit w a n :
  (w = 8 \/ w = 16) -> 0 <= a < 2 ^ w -> 1 <= n <= 16 ->
  Z.testbit (Z.land (Z.lxor a n) (Z.lxor a (wrap w (a - n)))) (w - 1)
  = (2 ^ (w - 1) <=? a) && (a - n <? 2 ^ (w - 1)).
Proof.
  intros Hw Ha Hn.
  rewrite Z.land_spec, !Z.lxor_spec by lia.
  rewrite (testbit_top w a) by lia.
  rewrite (testbit_top w n) by (destruct Hw; subst w; lia).
  rewrite (testbit_top w (wrap w (a - n))) by (try apply wrap_range; lia).
  unfold wrap.
  destruct Hw; subst w; cbn [Z.sub Z.add Z.opp Z.pos_sub Z.succ_double
                               Z.pred_double Z.double Pos.pred_double] in *;
    repeat match goal with
           | |- context [2 ^ ?k] =>
               let r := eval cbv in (2 ^ k) in change (2 ^ k) with r
           | H : context [2 ^ ?k] |- _ =>
               let r := eval cbv in (2 ^ k) in change (2 ^ k) with r in H
           end;
    repeat match goal with
           | |- context [?x <=? ?y] => destruct (Z.leb_spec x y)
           | |- context [?x <? ?y] => destruct (Z.ltb_spec x y)
           end; cbn; try reflexivity; exfalso; Z.div_mod_to_equations; lia.
Qed.

Ltac flag_bits :=
  change F_H with (2 ^ 2); change F_PV with (2 ^ 4);
  change F_S with (2 ^ 5); change F_Z with (2 ^ 6);
  change F_C with (2 ^ 7);
  rewrite !put_flag_testbit by lia.

Lemma inc_flags_bits w a n f :
  (w = 8 \/ w = 16) -> 0 <= a < 2 ^ w -> 1 <= n <= 16 ->
  let r := wrap w (a + n) in
  let f' := inc_flags w a n f in
  Z.testbit f' 7 = Z.testbit f 7 /\
  Z.testbit f' 6 = (r =? 0) /\
  Z.testbit f' 5 = (2 ^ (w - 1) <=? r) /\
  Z.testbit f' 4 = (a <? 2 ^ (w - 1)) && (2 ^ (w - 1) <=? a + n) /\
  Z.testbit f' 2 = (2 ^ (w - 4) <=? wrap (w - 4) a + wrap (w - 4) n) /\
  (forall k, untouched_by_inc k -> Z.testbit f' k = Z.testbit f k).
Proof.
  intros Hw Ha Hn r f'. unfold f', inc_flags. fold r.
  assert (Hr : 0 <= r < 2 ^ w) by (apply wrap_range; lia).
  repeat split; try (flag_bits; cbn; reflexivity).
  - flag_bits. cbn. apply testbit_top; lia.
  - flag_bits. cbn. now apply add_overflow_bit.
  - intros k (Hk & H2 & H4 & H5 & H6). flag_bits.
    repeat match goal with
           | |- context [k =? ?c] => destruct (Z.eqb_spec k c); [lia|]
           end.
    reflexivity.
Qed.

Lemma dec_flags_bits w a n f :
  (w = 8 \/ w = 16) -> 0 <= a < 2 ^ w -> 1 <= n <= 16 ->
  let r := wrap w (a - n) in
  let f' := dec_flags w a n f in
  Z.testbit f' 7 = Z.testbit f 7 /\
  Z.testbit f' 6 = (r =? 0) /\
  Z.testbit f' 5 = (2 ^ (w - 1) <=? r) /\
  Z.testbit f' 4 = (2 ^ (w - 1) <=? a) && (a - n <? 2 ^ (w - 1)) /\
  Z.testbit f' 2 = (wrap (w - 4) a <? wrap (w - 4) n) /\
  (forall k, untouched_by_inc k -> Z.testbit f' k = Z.testbit f k).
Proof.
  intros Hw Ha Hn r f'. unfold f', dec_flags. fold r.
  assert (Hr : 0 <= r < 2 ^ w) by (apply wrap_range; lia).
  repeat split; try (flag_bits; cbn; reflexivity).
  - flag_bits. cbn. apply testbit_top; lia.
  - flag_bits. cbn. now apply sub_overflow_bit.
  - intros k (Hk & H2 & H4 & H5 & H6). flag_bits.
    repeat match goal with
           | |- context [k =? ?c] => destruct (Z.eqb_spec k c); [lia|]
           end.
    reflexivity.
Qed.

(** C7: INC and DEC by n in 1..16 (encoded as n - 1), on any byte or word
    register and any operand value, leave the C flag of the FCW unchanged;
    they store the wrapped result and update Z (result is zero), S (sign of
    the result), V (set exactly when the operand crosses the signed
    boundary) and H; no other bit of the FCW changes. *)
Theorem inc_dec_leave_carry (host : endianness_t) (s : cpu) (dst : view)
  (imm4 : Z)
  (Hwf : wf_regs (regs s)) (Hdst : valid_view dst = true)
  (Hw : view_bits dst = 8 \/ view_bits dst = 16)
  (Himm : 0 <= imm4 < 16) :
  let a := read host (regs s) dst in
  let n := imm4 + 1 in
  let w := view_bits dst in
  (let s' := execute host (I_INC dst imm4) s in
   let r := wrap w (a + n) in
   read host (regs s') dst = r /\
   Z.testbit (fcw s') 7 = Z.testbit (fcw s) 7 /\
   Z.testbit (fcw s') 6 = (r =? 0) /\
   Z.testbit (fcw s') 5 = (2 ^ (w - 1) <=? r) /\
   Z.testbit (fcw s') 4 = (a <? 2 ^ (w - 1)) && (2 ^ (w - 1) <=? a + n) /\
   Z.testbit (fcw s') 2
   = (2 ^ (w - 4) <=? wrap (w - 4) a + wrap (w - 4) n) /\
   (forall k, untouched_by_inc k ->
              Z.testbit (fcw s') k = Z.testbit (fcw s) k)) /\
  (let s' := execute host (I_DEC dst imm4) s in
   let r := wrap w (a - n) in
   read host (regs s') dst = r /\
   Z.testbit (fcw s') 7 = Z.testbit (fcw s) 7 /\
   Z.testbit (fcw s') 6 = (r =? 0) /\
   Z.testbit (fcw s') 5 = (2 ^ (w - 1) <=? r) /\
   Z.testbit (fcw s') 4 = (2 ^ (w - 1) <=? a) && (a - n <? 2 ^ (w - 1)) /\
   Z.testbit (fcw s') 2 = (wrap (w - 4) a <? wrap (w - 4) n) /\
   (forall k, untouched_by_inc k ->
              Z.testbit (fcw s') k = Z.testbit (fcw s) k)).
Proof.
  intros a n w.
  assert (Ha : 0 <= a < 2 ^ w) by now apply read_range.
  assert (Hn : 1 <= n <= 16) by (unfold n; lia).
  split; intros s' r.
  - split.
    + unfold s', execute, INC. cbn [regs set_fcw set_regs set_pc].
      rewrite read_write_same by assumption. unfold r, wrap, w.
      apply Z.mod_mod. destruct Hw as [-> | ->]; lia.
    + apply (inc_flags_bits w a n (fcw s) Hw Ha Hn).
  - split.
    + unfold s', execute, DEC. cbn [regs set_fcw set_regs set_pc].
      rewrite read_write_same by assumption. unfold r, wrap, w.
      apply Z.mod_mod. destruct Hw as [-> | ->]; lia.
    + apply (dec_flags_bits w a n (fcw s) Hw Ha Hn).
Qed.

Lemma inc_dec_leave_carry_witness :
  let s := inc_scenario_state in
  let s' := execute ENDIANNESS_LITTLE (I_INC (VRW 3) 0) s in
  RW ENDIANNESS_LITTLE (regs s') 3 = 0x8000 /\
  Z.testbit (fcw s') 7 = Z.testbit (fcw s) 7 /\
  Z.testbit (fcw s') 5 = true /\
  Z.testbit (fcw s') 4 = true.
Proof.
  intros s s'.
  assert (Hwf : wf_regs (regs s)).
  { apply set_RW_wf. apply scenario_state_wf. }
  assert (Hdst : valid_view (VRW 3) = true) by reflexivity.
  assert (Hw : view_bits (VRW 3) = 8 \/ view_bits (VRW 3) = 16)
    by (right; reflexivity).
  assert (Himm : 0 <= 0 < 16) by lia.
  pose proof (inc_dec_leave_carry ENDIANNESS_LITTLE s (VRW 3) 0
                Hwf Hdst Hw Himm) as [(_ & HC & _) _].
  split; [reflexivity|]. split; [exact HC|]. split; reflexivity.
Defined.

(** *** Block instructions *)

Section Block.
Variable host : endianness_t.

Lemma bump_wf s p d : wf_regs (regs s) -> wf_regs (regs (bump host s p d)).
Proof. intros H. unfold bump. cbn [regs set_regs]. now apply set_RW_wf. Qed.

Lemma bump_other s p d n :
  wf_regs (regs s) -> valid_reg p = true -> valid_reg n = true -> p <> n ->
  RW host (regs (bump host s p d)) n = RW host (regs s) n.
Proof.
  unfold valid_reg. intros Hwf Hp Hn Hne.
  rewrite !andb_true_iff, !Z.leb_le, !Z.ltb_lt in *.
  unfold bump. cbn [regs set_regs]. now apply RW_set_RW_other.
Qed.

Lemma bump_same s p d :
  wf_regs (regs s) -> valid_reg p = true ->
  RW host (regs (bump host s p d)) p = u16 (RW host (regs s) p + d).
Proof.
  unfold valid_reg. intros Hwf Hp.
  rewrite !andb_true_iff, !Z.leb_le, !Z.ltb_lt in *.
  unfold bump. cbn [regs set_regs].
  rewrite RW_set_RW_same by assumption. apply u16_idem.
Qed.

Lemma valid_ptr_reg n : valid_ptr n = true -> valid_reg n = true.
Proof.
  unfold valid_ptr, valid_reg.
  rewrite !andb_true_iff, !Z.leb_le, !Z.ltb_lt. lia.
Qed.

Lemma block_step_wf b s :
  wf_regs (regs s) -> wf_regs (regs (fst (block_step host b s))).
Proof.
  intros H. unfold block_step.
  destruct (b_kind b); cbn [fst]; repeat apply bump_wf; exact H.
Qed.

(** The step leaves the count register alone when it is none of the
    pointers. *)
Lemma block_step_count b s :
  wf_regs (regs s) -> valid_block b = true -> count_separate b = true ->
  RW host (regs (fst (block_step host b s))) (b_cnt b)
  = RW host (regs s) (b_cnt b).
Proof.
  intros Hwf Hv Hs. unfold valid_block in Hv. unfold count_separate in Hs.
  unfold block_step, block_pointers in *.
  apply andb_true_iff in Hv. destruct Hv as [Hc Hk].
  destruct (b_kind b) as [dst src|data src cc|dst port|port src];
    cbn [fst forallb] in *;
    repeat match goal with
           | H : _ && _ = true |- _ =>
               apply andb_true_iff in H; destruct H
           | H : negb (_ =? _) = true |- _ =>
               apply negb_true_iff, Z.eqb_neq in H
           | H : valid_ptr _ = true |- _ => apply valid_ptr_reg in H
           end;
    repeat (rewrite bump_other;
            [|repeat apply bump_wf; assumption|assumption..]);
    reflexivity.
Qed.

Lemma block_step_set_pc b s x :
  block_step host b (set_pc s x)
  = (set_pc (fst (block_step host b s)) x, snd (block_step host b s)).
Proof. unfold block_step. destruct (b_kind b); reflexivity. Qed.


(** One pass over a block instruction whose count register is not 0. *)
Lemma exec_block_pass b s :
  wf_regs (regs s) -> valid_block b = true -> count_separate b = true ->
  RW host (regs s) (b_cnt b) <> 0 ->
  let c := RW host (regs s) (b_cnt b) in
  let s' := fst (exec_block host b s) in
  let again := snd (exec_block host b s) in
  wf_regs (regs s') /\
  RW host (regs s') (b_cnt b) = c - 1 /\
  Z.testbit (fcw s') 4 = (c - 1 =? 0) /\
  again = negb (negb (b_repeat b) || (c - 1 =? 0) || matched host b s) /\
  pc s' = (if again then pc s else u16 (pc s + 4)).
Proof.
  intros Hwf Hv Hs Hc c s' again.
  assert (Hcv : valid_reg (b_cnt b) = true).
  { unfold valid_block in Hv. apply andb_true_iff in Hv. tauto. }
  assert (Hcr : 0 <= b_cnt b < 16).
  { unfold valid_reg in Hcv.
    rewrite !andb_true_iff, !Z.leb_le, !Z.ltb_lt in Hcv. lia. }
  assert (Hrange : 0 <= c < 2 ^ 16) by (now apply RW_range).
  assert (Hu : u16 (c - 1) = c - 1) by (apply wrap_small; fold c in Hc; lia).
  unfold s', again, exec_block, block_handler.
  rewrite block_step_set_pc. cbn [instr_len].
  set (s1 := fst (block_step host b s)).
  assert (Hwf1 : wf_regs (regs s1)) by (now apply block_step_wf).
  assert (Hc1 : RW host (regs s1) (b_cnt b) = c)
    by (now apply block_step_count).
  cbn [regs set_pc]. rewrite Hc1, Hu. fold (matched host b s).
  set (t := negb (b_repeat b) || (c - 1 =? 0) || matched host b s).
  assert (Hregs : forall st : cpu, regs (if negb t then set_pc st (pc s) else st) = regs st)
    by (intros st; destruct (negb t); reflexivity).
  assert (Hfcw : forall st : cpu, fcw (if negb t then set_pc st (pc s) else st) = fcw st)
    by (intros st; destruct (negb t); reflexivity).
  cbn [fst snd]. rewrite Hregs, Hfcw. cbn [regs fcw set_fcw set_regs].
  split; [now apply set_RW_wf|].
  split; [rewrite RW_set_RW_same by assumption; exact Hu|].
  split.
  { change F_PV with (2 ^ 4). rewrite put_flag_testbit by lia. reflexivity. }
  split; [reflexivity|].
  destruct (negb t); reflexivity.
Qed.

Lemma run_block_step fuel b s :
  run_block host (S fuel) b s
  = if snd (exec_block host b s)
    then run_block host fuel b (fst (exec_block host b s))
    else Some (fst (exec_block host b s)).
Proof. cbn [run_block]. now destruct (exec_block host b s). Qed.


End Block.


Lemma cpir_state_wf : wf_regs (regs cpir_state).
Proof. do 3 apply set_RW_wf. apply scenario_state_wf. Qed.



(** *** The block tests of the suite, on the model

    The data of each test is placed at 0x1000; the expectations are those
    the tests check. *)

(** TEST 61, CPI R3,@R4,R5,eq on a matching word: Z, and R4 advanced by 2. *)
Example test_cpi_expected :
  run_test (mkBlock (BCP (VRW 3) 4 CC_EQ) false false false 5)
    (with_regs [(3, 0x1234); (4, 0x1000); (5, 1)]
       (with_words 0x1000 [0x1234] scenario_state))
  = Some ([0x1234; 0x1002; 0; 0], true, true).
Proof. vm_compute. reflexivity. Qed.

(** TEST 63, CPIR with no match in 3 words: not Z, and R5 = 0. *)
Example test_cpir_nomatch_expected :
  run_test (mkBlock (BCP (VRW 3) 4 CC_EQ) false false true 5)
    (with_regs [(3, 0x9999); (4, 0x1000); (5, 3)]
       (with_words 0x1000 [0x1111; 0x2222; 0x3333; 0x4444; 0x5555]
          scenario_state))
  = Some ([0x9999; 0x1006; 0; 0], false, true).
Proof. vm_compute. reflexivity. Qed.

(** TEST 64, CPIB RL3,@R4,R5,eq on a matching byte: Z, and R4 advanced
    by 1. *)
Example test_cpib_expected :
  run_test (mkBlock (BCP (VRL 3) 4 CC_EQ) false true false 5)
    (with_regs [(3, 0x00AB); (4, 0x1000); (5, 1)]
       (with_bytes 0x1000 [0xAB; 0x00] scenario_state))
  = Some ([0x00AB; 0x1001; 0; 0], true, true).
Proof. vm_compute. reflexivity. Qed.

(** TEST 65, CPDR from the last of four words back to the first: Z, and
    R5 = 0, the match falling on the last pass. *)
Example test_cpdr_expected :
  run_test (mkBlock (BCP (VRW 3) 4 CC_EQ) true false true 5)
    (with_regs [(3, 0x1111); (4, 0x1006); (5, 4)]
       (with_words 0x1000 [0x1111; 0x2222; 0x3333; 0x4444] scenario_state))
  = Some ([0x1111; 0x0FFE; 0; 0], true, true).
Proof. vm_compute. reflexivity. Qed.

(** TEST 66, CPIRB finding the third of five bytes: Z, and R4 advanced
    by 3. *)
Example test_cpirb_expected :
  run_test (mkBlock (BCP (VRL 3) 4 CC_EQ) false true true 5)
    (with_regs [(3, 0x00CD); (4, 0x1000); (5, 5)]
       (with_bytes 0x1000 [0xAB; 0xBC; 0xCD; 0xDE; 0xEF] scenario_state))
  = Some ([0x00CD; 0x1003; 2; 0], true, false).
Proof. vm_compute. reflexivity. Qed.

(** TEST 45, LDIR @R5,@R4,R6 over three words: the words are copied,
    R4 = 0x1006, R5 = 0x1106, R6 = 0 and V is set. *)
Example test_ldir_expected :
  match run_block ENDIANNESS_LITTLE 16 (mkBlock (BLD 5 4) false false true 6)
          (with_regs [(4, 0x1000); (5, 0x1100); (6, 3)]
             (with_words 0x1000 [0x1111; 0x2222; 0x3333] scenario_state))
  with
  | Some s =>
      map (RW ENDIANNESS_LITTLE (regs s)) [4; 5; 6] = [0x1006; 0x1106; 0] /\
      map (RDMEM_W (mem s)) [0x1100; 0x1102; 0x1104]
      = [0x1111; 0x2222; 0x3333] /\
      flag F_PV (fcw s) = true
  | None => False
  end.
Proof. vm_compute. repeat split. Qed.

(** *** The block-compare scenario *)

Lemma flag_Z_sub_flags w a v f :
  flag F_Z (sub_flags w a v f) = (wrap w (a - v) =? 0).
Proof.
  change F_Z with (2 ^ 6). rewrite flag_testbit by lia.
  unfold sub_flags. flag_bits. reflexivity.
Qed.

Lemma flag_Z_put_V x f : flag F_Z (put_flag F_PV x f) = flag F_Z f.
Proof.
  change F_Z with (2 ^ 6). rewrite !flag_testbit by lia.
  flag_bits. reflexivity.
Qed.

Lemma rewind_fields (again : bool) (st : cpu) (own : Z) :
  let st' := if again then set_pc st own else st in
  regs st' = regs st /\ mem st' = mem st /\ fcw st' = fcw st.
Proof. destruct again; repeat split. Qed.

(** One pass of CPIR R3,@R4,R5,eq. *)
Lemma cpir_pass host s :
  wf_regs (regs s) -> RW host (regs s) 5 <> 0 ->
  let a := RW host (regs s) 3 in
  let v := RDMEM_W (mem s) (RW host (regs s) 4) in
  let z := u16 (a - v) =? 0 in
  let s' := fst (exec_block host CPIR_R3_R4_R5_eq s) in
  let again := snd (exec_block host CPIR_R3_R4_R5_eq s) in
  wf_regs (regs s') /\
  mem s' = mem s /\
  RW host (regs s') 3 = a /\
  RW host (regs s') 4 = u16 (RW host (regs s) 4 + 2) /\
  RW host (regs s') 5 = RW host (regs s) 5 - 1 /\
  flag F_Z (fcw s') = z /\
  again = negb ((RW host (regs s) 5 - 1 =? 0) || z) /\
  pc s' = (if again then pc s else u16 (pc s + 4)).
Proof.
  intros Hwf Hc a v z s' again.
  assert (Hv : valid_block CPIR_R3_R4_R5_eq = true) by reflexivity.
  assert (Hs : count_separate CPIR_R3_R4_R5_eq = true) by reflexivity.
  destruct (exec_block_pass host CPIR_R3_R4_R5_eq s Hwf Hv Hs Hc)
    as (Hwf' & Hc' & _ & Ha & Hpc).
  fold s' again in Hwf', Hc', Ha, Hpc. cbn [b_cnt CPIR_R3_R4_R5_eq] in Hc'.
  assert (Hm : matched host CPIR_R3_R4_R5_eq s = z).
  { unfold matched, block_step. cbn [snd b_kind CPIR_R3_R4_R5_eq cond_holds].
    apply flag_Z_sub_flags. }
  rewrite Hm in Ha. cbn [b_repeat CPIR_R3_R4_R5_eq negb orb] in Ha.
  (* the state the handler leaves, before PC is rewound *)
  set (s0 := set_pc s (u16 (pc s + 4))).
  set (f := sub_flags 16 a v (fcw s)).
  set (s1 := bump host (set_fcw s0 f) 4 2).
  set (cnt := u16 (RW host (regs s1) 5 - 1)).
  set (s3 := set_fcw (set_regs s1 (set_RW host (regs s1) 5 cnt))
                     (put_flag F_PV (cnt =? 0) (fcw s1))).
  assert (E : s' = if again then set_pc s3 (pc s) else s3) by reflexivity.
  destruct (rewind_fields again s3 (pc s)) as (Er & Em & Ef).
  rewrite <- E in Er, Em, Ef.
  assert (Hwf1 : wf_regs (regs s1)) by (apply bump_wf; exact Hwf).
  split; [exact Hwf'|].
  split; [rewrite Em; reflexivity|].
  split.
  { rewrite Er. unfold s3. cbn [regs set_fcw set_regs].
    rewrite RW_set_RW_other by (try assumption; lia).
    unfold s1. now rewrite bump_other by (try assumption; try reflexivity; lia). }
  split.
  { rewrite Er. unfold s3. cbn [regs set_fcw set_regs].
    rewrite RW_set_RW_other by (try assumption; lia).
    unfold s1. now rewrite bump_same by (try assumption; reflexivity). }
  split; [exact Hc'|].
  split.
  { rewrite Ef. unfold s3. cbn [fcw set_fcw set_regs].
    rewrite flag_Z_put_V. unfold s1, bump. cbn [fcw set_fcw set_regs].
    apply flag_Z_sub_flags. }
  split; [exact Ha|exact Hpc].
Qed.

(** C5: from any state where memory at 0x1000 holds the words 0x1111,
    0x2222, 0x3333, 0x4444, 0x5555 and R3 = 0x3333, R4 = 0x1000, R5 = 5,
    CPIR R3,@R4,R5 with condition eq terminates, after three passes, with
    the Z flag set, R4 = 0x1006 and R5 = 2. *)
Theorem cpir_early_match (host : endianness_t) (s : cpu) (fuel : nat)
  (Hwf : wf_regs (regs s))
  (H3 : RW host (regs s) 3 = 0x3333)
  (H4 : RW host (regs s) 4 = 0x1000)
  (H5 : RW host (regs s) 5 = 5)
  (M0 : RDMEM_W (mem s) 0x1000 = 0x1111)
  (M1 : RDMEM_W (mem s) 0x1002 = 0x2222)
  (M2 : RDMEM_W (mem s) 0x1004 = 0x3333)
  (M3 : RDMEM_W (mem s) 0x1006 = 0x4444)
  (M4 : RDMEM_W (mem s) 0x1008 = 0x5555)
  (Hfuel : (3 <= fuel)%nat) :
  exists s' : cpu,
    run_block host fuel CPIR_R3_R4_R5_eq s = Some s' /\
    s' = passes host 3 CPIR_R3_R4_R5_eq s /\
    flag F_Z (fcw s') = true /\
    RW host (regs s') 4 = 0x1006 /\
    RW host (regs s') 5 = 2 /\
    pc s' = u16 (pc s + 4).
Proof.
  (* first pass: 0x1111 does not match *)
  destruct (cpir_pass host s Hwf) as (W1 & E1 & A1 & P1 & C1 & _ & G1 & PC1);
    [rewrite H5; lia|].
  rewrite H3, H4, H5, M0 in *.
  change (negb ((5 - 1 =? 0) || (u16 (0x3333 - 0x1111) =? 0))) with true in G1.
  rewrite G1 in PC1.
  set (s1 := fst (exec_block host CPIR_R3_R4_R5_eq s)) in *.
  change (u16 (0x1000 + 2)) with 0x1002 in P1.
  (* second pass: 0x2222 does not match *)
  destruct (cpir_pass host s1 W1) as (W2 & E2 & A2 & P2 & C2 & _ & G2 & PC2);
    [rewrite C1; lia|].
  rewrite A1, P1, C1, E1, M1 in *.
  change (negb ((5 - 1 - 1 =? 0) || (u16 (0x3333 - 0x2222) =? 0)))
    with true in G2.
  rewrite G2 in PC2.
  set (s2 := fst (exec_block host CPIR_R3_R4_R5_eq s1)) in *.
  change (u16 (0x1002 + 2)) with 0x1004 in P2.
  (* third pass: 0x3333 matches *)
  destruct (cpir_pass host s2 W2) as (W3 & E3 & A3 & P3 & C3 & Z3 & G3 & PC3);
    [rewrite C2; lia|].
  rewrite A2, P2, C2, E2, M2 in *.
  change (negb ((5 - 1 - 1 - 1 =? 0) || (u16 (0x3333 - 0x3333) =? 0)))
    with false in G3.
  rewrite G3 in PC3.
  set (s3 := fst (exec_block host CPIR_R3_R4_R5_eq s2)) in *.
  exists s3.
  split.
  { destruct fuel as [|[|[|fuel]]]; try lia.
    rewrite run_block_step. fold s1. rewrite G1.
    rewrite run_block_step. fold s2. rewrite G2.
    rewrite run_block_step. fold s3. rewrite G3. reflexivity. }
  split; [reflexivity|].
  split; [exact Z3|].
  split; [exact P3|].
  split; [rewrite C3; reflexivity|].
  rewrite PC3, PC2, PC1. reflexivity.
Qed.

Lemma cpir_early_match_witness :
  exists s' : cpu,
    run_block ENDIANNESS_LITTLE 5 CPIR_R3_R4_R5_eq cpir_state = Some s' /\
    flag F_Z (fcw s') = true /\
    RW ENDIANNESS_LITTLE (regs s') 4 = 0x1006 /\
    RW ENDIANNESS_LITTLE (regs s') 5 = 2.
Proof.
  assert (Hfuel : (3 <= 5)%nat) by lia.
  destruct (cpir_early_match ENDIANNESS_LITTLE cpir_state 5 cpir_state_wf
              eq_refl eq_refl eq_refl eq_refl eq_refl eq_refl eq_refl eq_refl
              Hfuel)
    as (s' & Hrun & _ & HZ & H4 & H5 & _).
  exists s'. auto.
Defined.

End Z8000Facts.
